(** * nestcollector: the OSM elements (osm_elements.py)

    A shallow embedding of the three element classes [Node], [Way] and
    [Relation] and of the two geometry builders, [Way.build_polygon] and
    [Relation.build_multipolygon].

    Python objects are shared and mutated in place: the lookup mapping
    handed to a builder holds references, and [build_multipolygon] writes
    the [polygon] attribute of the ways it meets.  Objects therefore live
    in a heap indexed by locations, the mappings map identifiers to
    locations, and the methods run in a state-and-exception monad whose
    state survives a raised exception. *)

From Stdlib Require Import Floats.PrimFloat Ascii.
From stdpp Require Import gmap strings list fin_maps pretty.

Open Scope Z_scope.
Open Scope string_scope.
Open Scope list_scope.

(** ** Geometry values *)

(** Modelled from the spec: shapely's [Polygon] (imported at line 5, not
    part of the repository).  The spec has it constructed "from the
    resulting ordered coordinate sequence" with "no explicit validity
    check": the value keeps the sequence it was built from. *)
Record Polygon := mkPolygon { shell : list (float * float) }.

(** Modelled from the spec: shapely's [MultiPolygon] (imported at line 5),
    "a collection of polygons", built from "the collected ordered polygon
    sequence". *)
Record MultiPolygon := mkMultiPolygon { geoms : list Polygon }.

(** ** The three element classes: attributes and constructors *)

(** [tags: Optional[dict]]: [None], or a dictionary from tag keys to tag
    values. *)
Abbreviation tags_t := (option (gmap string string)).

(** The truth value Python gives [tags] in [if tags and ...]: [None] and
    the empty dictionary are false. *)
Definition truthy (tags : tags_t) : bool :=
  match tags with
  | None => false
  | Some d => negb (bool_decide (d = ∅))
  end.

(** ['name' in tags] followed by [tags['name']], for a dictionary. *)
Definition contains (d : gmap string string) (k : string) : bool :=
  bool_decide (is_Some (d !! k)).

(** [tags['name'] if tags and 'name' in tags else None] (lines 87, 152). *)
Definition name_of_tags (tags : tags_t) : option string :=
  match tags with
  | Some d => if truthy tags && contains d "name" then d !! "name" else None
  | None => None
  end.

Module Node.
Record t := mk
  { type : string; id : Z; lat : float; lon : float; tags : tags_t }.

(** [Node.__init__] (lines 21-36). *)
Definition __init__ (type : string) (id : Z) (lat lon : float)
    (tags : tags_t) : t :=
  {| type := type; id := id; lat := lat; lon := lon; tags := tags |}.

(** [Node.__eq__] (lines 38-48):
    [isinstance(other, Node) and self.id == other.id].  [isinstance]
    is the downcast from the values [other] ranges over. *)
Definition __eq__ {O : Type} (isinstance : O → option t)
    (self : t) (other : O) : bool :=
  match isinstance other with
  | Some o => Z.eqb (id self) (id o)
  | None => false
  end.
End Node.

Module Way.
Record t := mk
  { type : string; id : Z; nodes : list Z; tags : tags_t;
    name : option string; polygon : option Polygon }.

(** [Way.__init__] (lines 73-88). *)
Definition __init__ (type : string) (id : Z) (nodes : list Z)
    (tags : tags_t) : t :=
  {| type := type; id := id; nodes := nodes; tags := tags;
     name := name_of_tags tags; polygon := None |}.

(** The way after an assignment to its [polygon] attribute. *)
Definition with_polygon (w : t) (p : option Polygon) : t :=
  {| type := type w; id := id w; nodes := nodes w; tags := tags w;
     name := name w; polygon := p |}.

(** [Way.__eq__] (lines 103-113). *)
Definition __eq__ {O : Type} (isinstance : O → option t)
    (self : t) (other : O) : bool :=
  match isinstance other with
  | Some o => Z.eqb (id self) (id o)
  | None => false
  end.
End Way.

(** A member descriptor: of the dictionary Overpass gives for a member,
    the two keys line 167 and line 168 read. *)
Module Member.
Record t := mk { type : string; ref : Z }.
End Member.

Module Relation.
Record t := mk
  { type : string; id : Z; members : list Member.t; tags : tags_t;
    name : option string; multipolygon : option MultiPolygon }.

(** [Relation.__init__] (lines 138-153). *)
Definition __init__ (type : string) (id : Z) (members : list Member.t)
    (tags : tags_t) : t :=
  {| type := type; id := id; members := members; tags := tags;
     name := name_of_tags tags; multipolygon := None |}.

(** The relation with its [multipolygon] attribute set by a caller. *)
Definition with_multipolygon (r : t) (mp : option MultiPolygon) : t :=
  {| type := type r; id := id r; members := members r; tags := tags r;
     name := name r; multipolygon := mp |}.

(** [Relation.__eq__] (lines 175-182). *)
Definition __eq__ {O : Type} (isinstance : O → option t)
    (self : t) (other : O) : bool :=
  match isinstance other with
  | Some o => Z.eqb (id self) (id o)
  | None => false
  end.
End Relation.

(** ** Objects, heap and state *)

Inductive obj :=
| ONode (n : Node.t)
| OWay (w : Way.t)
| ORelation (r : Relation.t).

Abbreviation loc := positive.

(** The state a call runs in: the heap of live objects, and [calls], the
    spy on the polygon-construction path, which lists the ways whose
    [build_polygon] has been entered, oldest first.  [calls] is ghost
    state: no definition below reads it. *)
Record state := mkState { heap : gmap loc obj; calls : list loc }.

Definition set_heap (s : state) (h : gmap loc obj) : state :=
  {| heap := h; calls := calls s |}.

(** The exceptions the two builders can raise: [KeyError] from a
    subscript [mapping[key]], [AttributeError] from an attribute the
    object does not have. *)
Inductive exn :=
| KeyError (key : Z)
| AttributeError (attr : string).

Inductive result (A : Type) :=
| Ok (a : A)
| Raise (e : exn).
Arguments Ok {A} a.
Arguments Raise {A} e.

Definition M (A : Type) : Type := state → state * result A.

(** [return], [raise] and sequencing: an exception ends the run and
    keeps the state reached so far.  The instances give the monad
    stdpp's [x ← m; k] and [m;; k]. *)
#[global] Instance M_ret : MRet M := λ A a s, (s, Ok a).
Definition raise {A} (e : exn) : M A := λ s, (s, Raise e).
#[global] Instance M_bind : MBind M := λ A B k m s,
  match m s with
  | (s', Ok a) => k a s'
  | (s', Raise e) => (s', Raise e)
  end.

(** [mapping[key]]. *)
Definition getitem (mapping : gmap Z loc) (key : Z) : M loc :=
  match mapping !! key with
  | Some l => mret l
  | None => raise (KeyError key)
  end.

(** Attribute reads.  A location outside the heap stands for no Python
    value; it is read as an object without attributes. *)
Definition getattr {A} (attr : string) (proj : obj → option A) (l : loc)
    : M A :=
  λ s, match heap s !! l ≫= proj with
       | Some a => (s, Ok a)
       | None => (s, Raise (AttributeError attr))
       end.

Definition as_node (o : obj) : option Node.t :=
  match o with ONode n => Some n | _ => None end.
Definition as_way (o : obj) : option Way.t :=
  match o with OWay w => Some w | _ => None end.
Definition as_relation (o : obj) : option Relation.t :=
  match o with ORelation r => Some r | _ => None end.

Definition get_lat : loc → M float :=
  getattr "lat" (λ o, Node.lat <$> as_node o).
Definition get_lon : loc → M float :=
  getattr "lon" (λ o, Node.lon <$> as_node o).
Definition get_nodes : loc → M (list Z) :=
  getattr "nodes" (λ o, Way.nodes <$> as_way o).
Definition get_polygon : loc → M (option Polygon) :=
  getattr "polygon" (λ o, Way.polygon <$> as_way o).
Definition get_members : loc → M (list Member.t) :=
  getattr "members" (λ o, Relation.members <$> as_relation o).

(** [way.polygon = p]: the object at [l] is updated in place. *)
Definition set_polygon (l : loc) (p : Polygon) : M unit :=
  λ s, match heap s !! l with
       | Some (OWay w) =>
           (set_heap s (<[l := OWay (Way.with_polygon w (Some p))]> (heap s)),
            Ok tt)
       | _ => (s, Raise (AttributeError "polygon"))
       end.

(** The spy: one entry per call of [build_polygon]. *)
Definition spied (s : state) (l : loc) : state :=
  {| heap := heap s; calls := calls s ++ [l] |}.

Definition spy (l : loc) : M unit := λ s, (spied s l, Ok tt).

(** ** Way.build_polygon (lines 90-101) *)

(** The list comprehension of line 100:
    [[(nodes[node].lat, nodes[node].lon) for node in self.nodes]]. *)
Fixpoint coordinates (nodes : gmap Z loc) (refs : list Z)
    : M (list (float * float)) :=
  match refs with
  | [] => mret []
  | node :: refs' =>
      p ← getitem nodes node;
      la ← get_lat p;
      q ← getitem nodes node;
      lo ← get_lon q;
      cs ← coordinates nodes refs';
      mret ((la, lo) :: cs)
  end.

Definition build_polygon (self : loc) (nodes : gmap Z loc) : M Polygon :=
  spy self;;
  refs ← get_nodes self;
  cs ← coordinates nodes refs;
  mret (mkPolygon cs).

(** ** Relation.build_multipolygon (lines 155-173) *)

(** Lines 169-171 for one resolved way: the cache test, the build and the
    store when the cache is empty, and the polygon line 171 appends.
    Line 171 reads [way.polygon] again; the attribute then holds the
    polygon just tested or just stored ([cached_polygon_cached] below),
    which is the one returned here. *)
Definition cached_polygon (way : loc) (ways : gmap Z loc) : M Polygon :=
  c ← get_polygon way;
  match c with
  | None =>
      p ← build_polygon way ways;
      set_polygon way p;;
      mret p
  | Some p => mret p
  end.

(** [member['type'] == 'way'] (line 167). *)
Definition is_way (member : Member.t) : bool :=
  String.eqb (Member.type member) "way".

(** The loop of lines 166-171, [polygons] being the list built so far. *)
Fixpoint for_members (ways : gmap Z loc) (members : list Member.t)
    (polygons : list Polygon) : M (list Polygon) :=
  match members with
  | [] => mret polygons
  | member :: members' =>
      if is_way member then
        way ← getitem ways (Member.ref member);
        p ← cached_polygon way ways;
        for_members ways members' (polygons ++ [p])
      else for_members ways members' polygons
  end.

Definition build_multipolygon (self : loc) (ways : gmap Z loc)
    : M MultiPolygon :=
  members ← get_members self;
  polygons ← for_members ways members [];
  mret (mkMultiPolygon polygons).

(** ** Equality *)

(** [p == q]: Python calls the [__eq__] of [p]'s class; each of the three
    returns a boolean, so the reflected call is never tried. *)
Definition py_eq (p q : obj) : bool :=
  match p with
  | ONode n => Node.__eq__ as_node n q
  | OWay w => Way.__eq__ as_way w q
  | ORelation r => Relation.__eq__ as_relation r q
  end.

Definition identity (o : obj) : Z :=
  match o with
  | ONode n => Node.id n
  | OWay w => Way.id w
  | ORelation r => Relation.id r
  end.

(** ** Specification vocabulary *)

(** The members the loop acts on, in stored order. *)
Definition way_members (r : Relation.t) : list Member.t :=
  List.filter is_way (Relation.members r).

(** The polygon line 171 obtains for the way at [l] in state [s]: the
    cached one, else the one [build_polygon] returns there. *)
Definition polygon_at (ways : gmap Z loc) (s : state) (l : loc)
    : option Polygon :=
  match heap s !! l with
  | Some (OWay w) =>
      match Way.polygon w with
      | Some p => Some p
      | None =>
          match snd (build_polygon l ways s) with
          | Ok p => Some p
          | Raise _ => None
          end
      end
  | _ => None
  end.

Definition member_polygon (ways : gmap Z loc) (s : state) (m : Member.t)
    : option Polygon :=
  ways !! Member.ref m ≫= polygon_at ways s.


Definition ways_mapping (s : state) (ways : gmap Z loc) : Prop :=
  map_Forall (λ _ l, is_Some (heap s !! l ≫= as_way)) ways.

(** The class of an object. *)
Inductive class := CNode | CWay | CRelation.

Definition class_of (o : obj) : class :=
  match o with
  | ONode _ => CNode
  | OWay _ => CWay
  | ORelation _ => CRelation
  end.

(** The [name] attribute of the object at [l], when it has one. *)
Definition name_at (s : state) (l : loc) : option (option string) :=
  match heap s !! l with
  | Some (OWay w) => Some (Way.name w)
  | Some (ORelation r) => Some (Relation.name r)
  | _ => None
  end.

(** ** Relations between the state before and after a call *)

(** Two states agree up to [f] when their heaps hold, at every
    location, objects that [f] does not tell apart. *)
Definition agree (f : obj → obj) (s t : state) : Prop :=
  ∀ l, f <$> heap s !! l = f <$> heap t !! l.

(** Forgetting a way's polygon cache, and a relation's [multipolygon]. *)
Definition erase (o : obj) : obj :=
  match o with
  | OWay w => OWay (Way.with_polygon w None)
  | _ => o
  end.

Definition clear_mp (o : obj) : obj :=
  match o with
  | ORelation r => ORelation (Relation.with_multipolygon r None)
  | _ => o
  end.

(** A populated cache is kept, object and all. *)
Definition caches_kept (s t : state) : Prop :=
  ∀ l w p, heap s !! l = Some (OWay w) → Way.polygon w = Some p →
    heap t !! l = Some (OWay w).

Definition uncached (s : state) (l : loc) : Prop :=
  ∃ w, heap s !! l = Some (OWay w) ∧ Way.polygon w = None.

Definition cached (s : state) (l : loc) : Prop :=
  ∃ w p, heap s !! l = Some (OWay w) ∧ Way.polygon w = Some p.

(** The spy saw only ways whose cache was empty in [s]. *)
Definition calls_fresh (s t : state) : Prop :=
  ∃ new, calls t = calls s ++ new ∧ Forall (uncached s) new.

(** What a call of [build_multipolygon] may do to the state. *)
Record extends (s t : state) : Prop := mkExtends
  { ext_frame : agree erase s t;
    ext_kept : caches_kept s t;
    ext_calls : calls_fresh s t }.

(** ** A small data set

    Three points, three ways and three relations.  Way 10 is a closed
    ring with an empty cache, way 11 carries a polygon cached earlier
    (one its points no longer give), way 12 names a point that is not
    there.  [example_mapping] holds points and ways side by side, as
    the call at line 170 needs it. *)

Definition ring : Polygon :=
  mkPolygon [(0, 0); (0, 1); (1, 1); (0, 0)]%float.

Definition stale : Polygon :=
  mkPolygon [(5, 5); (5, 6); (6, 6)]%float.

Definition way10 : Way.t :=
  Way.__init__ "way" 10 [1; 2; 3; 1] (Some {[ "name" := "Park" ]}).

Definition way11 : Way.t :=
  Way.with_polygon (Way.__init__ "way" 11 [1; 2] None) (Some stale).

Definition way12 : Way.t := Way.__init__ "way" 12 [1; 4] None.

Definition relation7 : Relation.t :=
  Relation.__init__ "relation" 7
    [Member.mk "way" 10; Member.mk "node" 1; Member.mk "way" 11;
     Member.mk "way" 10] None.

Definition relation8 : Relation.t :=
  Relation.__init__ "relation" 8
    [Member.mk "way" 10; Member.mk "way" 99; Member.mk "way" 11] None.

Definition relation9 : Relation.t :=
  Relation.__init__ "relation" 9
    [Member.mk "way" 10; Member.mk "way" 12] None.

Definition example_heap : gmap loc obj :=
  <[1%positive := ONode (Node.__init__ "node" 1 0 0 None)]>
  (<[2%positive := ONode (Node.__init__ "node" 2 0 1 None)]>
  (<[3%positive := ONode (Node.__init__ "node" 3 1 1 None)]>
  (<[4%positive := OWay way10]>
  (<[5%positive := OWay way11]>
  (<[6%positive := OWay way12]>
  (<[7%positive := ORelation relation7]>
  (<[8%positive := ORelation relation8]>
  (<[9%positive := ORelation relation9]> ∅)))))))).

Definition example_state : state := mkState example_heap [].

Definition example_points : gmap Z loc :=
  <[1 := 1%positive]> (<[2 := 2%positive]> (<[3 := 3%positive]> ∅)).

Definition example_mapping : gmap Z loc :=
  <[10 := 4%positive]> (<[11 := 5%positive]> (<[12 := 6%positive]>
    example_points)).

(** A relation over a mapping that holds ways only: way 10 names the
    identifier 10, which the mapping gives to the way itself. *)
Definition selfref_way : Way.t := Way.__init__ "way" 10 [10] None.




(** A point and a way that share the identifier 10. *)
Definition node_10 : obj := ONode (Node.__init__ "node" 10 0 0 None).
Definition way_10 : obj := OWay way10.

(** ** Further vocabulary and data

    What line 100 makes of one reference: the pair of the point the
    mapping gives it, or the exception of the subscript or of the
    first attribute read. *)
Definition coordinate_of (s : state) (nodes : gmap Z loc) (k : Z)
    : result (float * float) :=
  match nodes !! k with
  | None => Raise (KeyError k)
  | Some l =>
      match heap s !! l ≫= as_node with
      | Some n => Ok (Node.lat n, Node.lon n)
      | None => Raise (AttributeError "lat")
      end
  end.

(** The polygon attribute of the way at [l], if [l] holds a way. *)
Definition polygon_of (s : state) (l : loc) : option Polygon :=
  (heap s !! l ≫= as_way) ≫= Way.polygon.

(** A mapping that holds the three ways only, and a way without
    nodes. *)
Definition ways_only : gmap Z loc :=
  <[10 := 4%positive]> (<[11 := 5%positive]> (<[12 := 6%positive]> ∅)).

Definition way13 : Way.t := Way.__init__ "way" 13 [] None.

(** Two relations and the relation of their members put end to end. *)
Definition relation20 : Relation.t :=
  Relation.__init__ "relation" 20
    [Member.mk "way" 11; Member.mk "way" 10] None.

Definition relation21 : Relation.t :=
  Relation.__init__ "relation" 21
    (Relation.members relation7 ++ Relation.members relation20) None.

(** Relation 22 names the cached way 11 and the way 13. *)
Definition relation22 : Relation.t :=
  Relation.__init__ "relation" 22
    [Member.mk "way" 11; Member.mk "relation" 7; Member.mk "way" 13] None.

(** Relation 23 names nothing but the cached way 11. *)
Definition relation23 : Relation.t :=
  Relation.__init__ "relation" 23
    [Member.mk "way" 11; Member.mk "node" 1; Member.mk "way" 11] None.

Definition larger_state : state :=
  mkState (<[20%positive := ORelation relation20]>
          (<[21%positive := ORelation relation21]>
          (<[22%positive := ORelation relation22]>
          (<[23%positive := ORelation relation23]>
          (<[13%positive := OWay way13]> example_heap))))) [].

Definition ways_only13 : gmap Z loc := <[13 := 13%positive]> ways_only.

(** ** The diagnostic strings (lines 50-57, 115-122, 184-191) *)

(** [str] of an [int], as an f-string renders [self.id]: the decimal
    digits, after a minus sign for a negative number. *)
Definition str_int (z : Z) : string := pretty z.

(** [repr] of a list of [int], as an f-string renders [self.nodes]. *)
Definition repr_ints (l : list Z) : string :=
  "[" +:+ String.concat ", " (str_int <$> l) +:+ "]".

(** A string without a comma. *)
Fixpoint comma_free (s : string) : bool :=
  match s with
  | EmptyString => true
  | String c s' => negb (Ascii.eqb c ","%char) && comma_free s'
  end.

Section str.
(** The renderings Python gives a float, the tags ([None] or a
    dictionary) and the list of member dictionaries: the language's,
    not the repository's, and parameters here. *)
Variable repr_float : float → string.
Variable repr_tags : tags_t → string.
Variable repr_members : list Member.t → string.

(** [Node.__str__] (lines 50-57). *)
Definition Node__str__ (self : Node.t) : string :=
  "Node(id=" +:+ str_int (Node.id self)
  +:+ ", lat=" +:+ repr_float (Node.lat self)
  +:+ ", lon=" +:+ repr_float (Node.lon self)
  +:+ ", tags=" +:+ repr_tags (Node.tags self) +:+ ")".

(** [Way.__str__] (lines 115-122). *)
Definition Way__str__ (self : Way.t) : string :=
  "Way(id=" +:+ str_int (Way.id self)
  +:+ ", nodes=" +:+ repr_ints (Way.nodes self)
  +:+ ", tags=" +:+ repr_tags (Way.tags self) +:+ ")".

(** [Relation.__str__] (lines 184-191). *)
Definition Relation__str__ (self : Relation.t) : string :=
  "Relation(id=" +:+ str_int (Relation.id self)
  +:+ ", members=" +:+ repr_members (Relation.members self)
  +:+ ", tags=" +:+ repr_tags (Relation.tags self) +:+ ")".

(** [str(p)]: the [__str__] of the class of [p]. *)
Definition py_str (p : obj) : string :=
  match p with
  | ONode n => Node__str__ n
  | OWay w => Way__str__ w
  | ORelation r => Relation__str__ r
  end.
End str.

(** ** Tactics *)

(** With [H : agree clear_mp s t] and [Hs] giving the object of [s] at
    [l], a point or a relation or none: close the goal by cases on the
    object of [t] at [l]. *)
Ltac same_class H l Hs :=
  let Hl := fresh "Hl" in
  pose proof (H l) as Hl; rewrite Hs in Hl;
  match goal with
  | |- context [heap ?t !! l] =>
      destruct (heap t !! l) as [[?|?|?]|]; by simplify_eq/=
  end.

(** Every reference in a literal list resolves to a point. *)
Ltac resolve_refs :=
  let k := fresh "k" in
  let Hk := fresh "Hk" in
  intros k Hk;
  repeat (apply elem_of_cons in Hk as [->|Hk];
          [eexists _, _; split; reflexivity|]);
  by apply elem_of_nil in Hk.

(** ** Running the monad *)

Lemma run_bind {A B} (m : M A) (k : A → M B) (s : state) :
  (m ≫= k) s =
  match m s with
  | (s', Ok a) => k a s'
  | (s', Raise e) => (s', Raise e)
  end.
Proof. reflexivity. Qed.

Lemma run_getattr {A} attr (proj : obj → option A) l s :
  getattr attr proj l s =
  (s, match heap s !! l ≫= proj with
      | Some a => Ok a
      | None => Raise (AttributeError attr)
      end).
Proof. unfold getattr. by destruct (heap s !! l ≫= proj). Qed.

Lemma run_getitem mapping key s :
  getitem mapping key s =
  (s, match mapping !! key with
      | Some l => Ok l
      | None => Raise (KeyError key)
      end).
Proof. unfold getitem. by destruct (mapping !! key). Qed.

(** ** Way.build_polygon: frame and result *)

(** Resolving the references reads the heap and writes nothing. *)
Lemma coordinates_state nodes refs s :
  fst (coordinates nodes refs s) = s.
Proof.
  induction refs as [|k refs IH]; [done|].
  cbn [coordinates]. unfold get_lat, get_lon.
  rewrite run_bind, run_getitem.
  destruct (nodes !! k) as [l|] eqn:Hk; [|done].
  rewrite run_bind, run_getattr.
  destruct (heap s !! l ≫= _); [|done].
  rewrite run_bind, run_getitem, Hk, run_bind, run_getattr.
  destruct (heap s !! l ≫= _); [|done].
  rewrite run_bind. destruct (coordinates nodes refs s) as [s' [cs|e]];
    simpl in *; by subst.
Qed.

Lemma coordinates_run nodes refs s :
  coordinates nodes refs s = (s, snd (coordinates nodes refs s)).
Proof.
  rewrite <- (coordinates_state nodes refs s) at 2.
  by destruct (coordinates nodes refs s).
Qed.

(** One round of the comprehension: the subscript, then the two
    attribute reads, then the rest of the references. *)
Lemma coordinates_cons nodes k refs s :
  snd (coordinates nodes (k :: refs) s) =
  match nodes !! k with
  | None => Raise (KeyError k)
  | Some l =>
      match heap s !! l ≫= as_node with
      | None => Raise (AttributeError "lat")
      | Some n =>
          match snd (coordinates nodes refs s) with
          | Ok cs => Ok ((Node.lat n, Node.lon n) :: cs)
          | Raise e => Raise e
          end
      end
  end.
Proof.
  cbn [coordinates]. unfold get_lat, get_lon.
  rewrite run_bind, run_getitem.
  destruct (nodes !! k) as [l|] eqn:Hk; [|done].
  rewrite run_bind, run_getattr.
  destruct (heap s !! l) as [[n|w|r]|] eqn:Hl; simpl; try done.
  rewrite run_bind, run_getitem, Hk, run_bind, run_getattr, Hl. simpl.
  rewrite run_bind, coordinates_run.
  by destruct (snd (coordinates nodes refs s)).
Qed.

(** The only trace a call of [build_polygon] leaves is the spy's. *)
Lemma build_polygon_unfold self nodes s :
  build_polygon self nodes s =
  (spied s self,
   match heap s !! self ≫= (λ o, Way.nodes <$> as_way o) with
   | Some refs =>
       match snd (coordinates nodes refs (spied s self)) with
       | Ok cs => Ok (mkPolygon cs)
       | Raise e => Raise e
       end
   | None => Raise (AttributeError "nodes")
   end).
Proof.
  unfold build_polygon. rewrite run_bind. unfold spy, get_nodes.
  rewrite run_bind, run_getattr.
  change (heap (spied s self)) with (heap s).
  destruct (heap s !! self ≫= _) as [refs|]; [|done].
  rewrite !run_bind, coordinates_run.
  by destruct (snd (coordinates nodes refs (spied s self))).
Qed.

Lemma build_polygon_run self nodes s :
  build_polygon self nodes s =
  (spied s self, snd (build_polygon self nodes s)).
Proof. by rewrite build_polygon_unfold. Qed.

(** ** What the builders read *)

Section agreement.
Variable f : obj → obj.
Hypothesis f_node : ∀ o, as_node (f o) = as_node o.
Hypothesis f_nodes : ∀ o, Way.nodes <$> as_way (f o) = Way.nodes <$> as_way o.

Lemma agree_view {A} (proj : obj → option A) s t l :
  (∀ o, proj (f o) = proj o) → agree f s t →
  heap s !! l ≫= proj = heap t !! l ≫= proj.
Proof.
  intros Hp H. specialize (H l).
  destruct (heap s !! l) as [o|], (heap t !! l) as [o'|];
    simpl in *; try done.
  injection H as H. by rewrite <- (Hp o), H, Hp.
Qed.

Lemma coordinates_agree nodes refs s t :
  agree f s t →
  snd (coordinates nodes refs s) = snd (coordinates nodes refs t).
Proof.
  intros H. induction refs as [|k refs IH]; [done|].
  rewrite !coordinates_cons, IH.
  destruct (nodes !! k) as [l|]; [|done].
  by rewrite (agree_view as_node s t l f_node H).
Qed.

(** [build_polygon] returns the same in two states that agree up to
    [f]: it reads the receiver's [nodes] and the points' coordinates. *)
Lemma build_polygon_agree self nodes s t :
  agree f s t →
  snd (build_polygon self nodes s) = snd (build_polygon self nodes t).
Proof.
  intros H. rewrite !build_polygon_unfold. cbn [snd].
  rewrite (agree_view _ s t self f_nodes H).
  destruct (heap t !! self ≫= _) as [refs|]; [|done].
  by rewrite (coordinates_agree nodes refs (spied s self) (spied t self)).
Qed.
End agreement.

Lemma agree_refl f s : agree f s s.
Proof. done. Qed.

Lemma agree_trans f s t u : agree f s t → agree f t u → agree f s u.
Proof. intros H1 H2 l. by rewrite H1. Qed.

Lemma build_polygon_erase self nodes s t :
  agree erase s t →
  snd (build_polygon self nodes s) = snd (build_polygon self nodes t).
Proof. apply build_polygon_agree; by intros []. Qed.

(** ** Lines 169-171: the cache test, the build and the store *)

Lemma cached_polygon_unfold l ways s :
  cached_polygon l ways s =
  match heap s !! l with
  | Some (OWay w) =>
      match Way.polygon w with
      | Some p => (s, Ok p)
      | None =>
          match snd (build_polygon l ways s) with
          | Ok p =>
              ({| heap := <[l := OWay (Way.with_polygon w (Some p))]> (heap s);
                  calls := calls s ++ [l] |}, Ok p)
          | Raise e => (spied s l, Raise e)
          end
      end
  | _ => (s, Raise (AttributeError "polygon"))
  end.
Proof.
  unfold cached_polygon, get_polygon. rewrite run_bind, run_getattr.
  destruct (heap s !! l) as [[n|w|r]|] eqn:Hl; simpl; try done.
  destruct (Way.polygon w) as [p|]; [done|].
  rewrite run_bind, build_polygon_run.
  destruct (snd (build_polygon l ways s)) as [p|e]; [|done].
  rewrite run_bind. unfold set_polygon.
  change (heap (spied s l)) with (heap s). by rewrite Hl.
Qed.

(** The polygon the step hands to line 171 is [polygon_at]. *)
Lemma cached_polygon_result l ways s :
  match polygon_at ways s l with
  | Some p => snd (cached_polygon l ways s) = Ok p
  | None => ∃ e, snd (cached_polygon l ways s) = Raise e
  end.
Proof.
  rewrite cached_polygon_unfold. unfold polygon_at.
  destruct (heap s !! l) as [[n|w|r]|]; simpl; eauto.
  destruct (Way.polygon w) as [p|]; [done|].
  destruct (snd (build_polygon l ways s)); simpl; eauto.
Qed.

Lemma extends_refl s : extends s s.
Proof.
  split; [done|by intros l w p|].
  exists []. by rewrite app_nil_r.
Qed.

Lemma uncached_extends s t l : extends s t → uncached t l → uncached s l.
Proof.
  intros [Hf Hk _] (w & Hl & Hp). specialize (Hf l). rewrite Hl in Hf.
  destruct (heap s !! l) as [[n|w0|r]|] eqn:Hs; simpl in Hf; try done.
  exists w0. split; [done|].
  destruct (Way.polygon w0) as [p|] eqn:Hp0; [|done].
  specialize (Hk l w0 p Hs Hp0). congruence.
Qed.

Lemma extends_trans s t u : extends s t → extends t u → extends s u.
Proof.
  intros Hst Htu. split.
  - eapply agree_trans; [apply Hst|apply Htu].
  - intros l w p Hl Hp. eapply (ext_kept _ _ Htu); [|done].
    by eapply (ext_kept _ _ Hst).
  - destruct (ext_calls _ _ Hst) as (n1 & E1 & F1).
    destruct (ext_calls _ _ Htu) as (n2 & E2 & F2).
    exists (n1 ++ n2). split; [by rewrite E2, E1, app_assoc|].
    apply Forall_app. split; [done|].
    eapply Forall_impl; [apply F2|]. intros l. by apply uncached_extends.
Qed.

Lemma cached_polygon_extends l ways s :
  extends s (fst (cached_polygon l ways s)).
Proof.
  rewrite cached_polygon_unfold.
  destruct (heap s !! l) as [[n|w|r]|] eqn:Hl; try apply extends_refl.
  destruct (Way.polygon w) as [p|] eqn:Hp; [apply extends_refl|].
  assert (Hfresh : ∀ t, calls t = calls s ++ [l] → calls_fresh s t).
  { intros t Ht. exists [l]. split; [done|].
    apply Forall_singleton. by exists w. }
  destruct (snd (build_polygon l ways s)) as [p|e]; cbn [fst].
  - split; [| |by apply Hfresh].
    + intros l'. cbn [heap]. destruct (decide (l = l')) as [<-|Hne].
      * by rewrite lookup_insert_eq, Hl.
      * by rewrite lookup_insert_ne.
    + intros l' w' p' Hl' Hp'. cbn [heap].
      destruct (decide (l = l')) as [<-|Hne]; [congruence|].
      by rewrite lookup_insert_ne.
  - split; [done|by intros l' w' p'|by apply Hfresh].
Qed.

(** A step changes no polygon the loop will obtain later. *)
Lemma cached_polygon_polygon_at l ways s l' :
  polygon_at ways (fst (cached_polygon l ways s)) l' = polygon_at ways s l'.
Proof.
  pose proof (cached_polygon_extends l ways s) as Hext.
  revert Hext. rewrite cached_polygon_unfold.
  destruct (heap s !! l) as [[n|w|r]|] eqn:Hl; try done.
  destruct (Way.polygon w) as [p|] eqn:Hp; [done|].
  destruct (snd (build_polygon l ways s)) as [p|e] eqn:Hb; cbn [fst];
    intros Hext; unfold polygon_at; cbn [heap].
  - destruct (decide (l = l')) as [<-|Hne].
    + by rewrite lookup_insert_eq, Hl, Hp, Hb.
    + rewrite lookup_insert_ne by done.
      by rewrite <- (build_polygon_erase l' ways _ _ (ext_frame _ _ Hext)).
  - by rewrite <- (build_polygon_erase l' ways _ _ (ext_frame _ _ Hext)).
Qed.

(** ** The loop of lines 166-171 *)

Lemma for_members_cons ways m ms acc s :
  for_members ways (m :: ms) acc s =
  if is_way m then
    match ways !! Member.ref m with
    | None => (s, Raise (KeyError (Member.ref m)))
    | Some l =>
        match cached_polygon l ways s with
        | (s1, Ok p) => for_members ways ms (acc ++ [p]) s1
        | (s1, Raise e) => (s1, Raise e)
        end
    end
  else for_members ways ms acc s.
Proof.
  cbn [for_members]. destruct (is_way m); [|done].
  rewrite run_bind, run_getitem.
  by destruct (ways !! Member.ref m).
Qed.

(** Members are processed left to right; a failure stops the loop. *)
Lemma for_members_app ways ms1 ms2 acc s :
  for_members ways (ms1 ++ ms2) acc s =
  match for_members ways ms1 acc s with
  | (s1, Ok acc1) => for_members ways ms2 acc1 s1
  | (s1, Raise e) => (s1, Raise e)
  end.
Proof.
  revert acc s. induction ms1 as [|m ms1 IH]; intros acc s; [done|].
  rewrite <- app_comm_cons, !for_members_cons.
  destruct (is_way m); [|apply IH].
  destruct (ways !! Member.ref m) as [l|]; [|done].
  destruct (cached_polygon l ways s) as [s1 [p|e]]; [apply IH|done].
Qed.

Lemma for_members_extends ways ms acc s :
  extends s (fst (for_members ways ms acc s)).
Proof.
  revert acc s. induction ms as [|m ms IH]; intros acc s.
  { apply extends_refl. }
  rewrite for_members_cons. destruct (is_way m); [|apply IH].
  destruct (ways !! Member.ref m) as [l|]; [|apply extends_refl].
  pose proof (cached_polygon_extends l ways s) as H1.
  destruct (cached_polygon l ways s) as [s1 [p|e]]; [|done].
  eapply extends_trans; [apply H1|apply IH].
Qed.

Lemma for_members_polygon_at ways ms acc s l :
  polygon_at ways (fst (for_members ways ms acc s)) l = polygon_at ways s l.
Proof.
  revert acc s. induction ms as [|m ms IH]; intros acc s; [done|].
  rewrite for_members_cons. destruct (is_way m); [|apply IH].
  destruct (ways !! Member.ref m) as [l0|]; [|done].
  pose proof (cached_polygon_polygon_at l0 ways s l) as H1.
  destruct (cached_polygon l0 ways s) as [s1 [p|e]]; [|done].
  by rewrite IH.
Qed.

(** The loop succeeds exactly when every way member has a polygon to
    give, and then appends these polygons in member order. *)
Lemma for_members_result ways ms acc s :
  match mapM (member_polygon ways s) (List.filter is_way ms) with
  | Some ps => snd (for_members ways ms acc s) = Ok (acc ++ ps)
  | None => ∃ e, snd (for_members ways ms acc s) = Raise e
  end.
Proof.
  revert acc s. induction ms as [|m ms IH]; intros acc s.
  { simpl. by rewrite app_nil_r. }
  rewrite for_members_cons. cbn [List.filter].
  destruct (is_way m); [|apply IH].
  cbn [mapM].
  destruct (ways !! Member.ref m) as [l|] eqn:Hw.
  2: { assert (member_polygon ways s m = None) as ->.
       { unfold member_polygon. by rewrite Hw. }
       simpl. eauto. }
  assert (Hm : member_polygon ways s m = polygon_at ways s l).
  { unfold member_polygon. by rewrite Hw. }
  rewrite Hm.
  pose proof (cached_polygon_result l ways s) as Hr.
  pose proof (cached_polygon_polygon_at l ways s) as Hat.
  destruct (cached_polygon l ways s) as [s1 [p|e]]; cbn [fst snd] in *.
  - destruct (polygon_at ways s l) as [p'|]; [|by destruct Hr].
    injection Hr as ->. simpl. specialize (IH (acc ++ [p']) s1).
    assert (Heq : mapM (member_polygon ways s1) (List.filter is_way ms)
                  = mapM (member_polygon ways s) (List.filter is_way ms)).
    { apply mapM_ext. intros m'. unfold member_polygon.
      destruct (ways !! Member.ref m'); simpl; [apply Hat|done]. }
    rewrite Heq in IH.
    destruct (mapM _ _) as [ps|]; simpl; [|done].
    by rewrite IH, <- app_assoc.
  - destruct (polygon_at ways s l) as [p'|]; [done|]. simpl. eauto.
Qed.

Lemma cached_extends s t l : extends s t → cached s l → cached t l.
Proof.
  intros Hext (w & p & Hl & Hp). exists w, p. split; [|done].
  by eapply (ext_kept _ _ Hext).
Qed.

(** A step that returns leaves the way's cache populated. *)
Lemma cached_polygon_cached l ways s p :
  snd (cached_polygon l ways s) = Ok p →
  ∃ w, heap (fst (cached_polygon l ways s)) !! l = Some (OWay w)
       ∧ Way.polygon w = Some p.
Proof.
  rewrite cached_polygon_unfold.
  destruct (heap s !! l) as [[n|w|r]|] eqn:Hl; try done.
  destruct (Way.polygon w) as [p'|] eqn:Hp.
  - intros [= ->]. by exists w.
  - destruct (snd (build_polygon l ways s)) as [p'|e]; [|done].
    intros [= ->]. eexists. cbn [fst heap].
    by rewrite lookup_insert_eq.
Qed.

(** After a loop that returns, every way member's cache is populated. *)
Lemma for_members_cached ways ms acc s r m :
  snd (for_members ways ms acc s) = Ok r →
  m ∈ ms → is_way m = true →
  ∃ l, ways !! Member.ref m = Some l
       ∧ cached (fst (for_members ways ms acc s)) l.
Proof.
  revert acc s. induction ms as [|m0 ms IH]; intros acc s Hr Hin Hm.
  { by apply elem_of_nil in Hin. }
  revert Hr. rewrite for_members_cons.
  apply elem_of_cons in Hin as [->|Hin].
  - rewrite Hm. destruct (ways !! Member.ref m0) as [l|]; [|done].
    pose proof (cached_polygon_cached l ways s) as Hc.
    destruct (cached_polygon l ways s) as [s1 [p|e]]; [|done].
    intros _. exists l. split; [done|].
    destruct (Hc p eq_refl) as (w & Hl & Hp).
    eapply cached_extends; [apply for_members_extends|]. by exists w, p.
  - destruct (is_way m0); [|intros Hr; by apply IH].
    destruct (ways !! Member.ref m0) as [l|]; [|done].
    destruct (cached_polygon l ways s) as [s1 [p|e]]; [|done].
    intros Hr. by apply IH.
Qed.

(** With every way member cached, the loop only reads. *)
Lemma for_members_all_cached ways ms acc s :
  (∀ m, m ∈ ms → is_way m = true →
     ∃ l, ways !! Member.ref m = Some l ∧ cached s l) →
  fst (for_members ways ms acc s) = s.
Proof.
  revert acc. induction ms as [|m ms IH]; intros acc Hall; [done|].
  rewrite for_members_cons. destruct (is_way m) eqn:Hm.
  - destruct (Hall m) as (l & Hw & w & p & Hl & Hp); [left|done|].
    rewrite Hw, cached_polygon_unfold, Hl, Hp.
    apply IH. intros m' Hin. apply Hall. by right.
  - apply IH. intros m' Hin. apply Hall. by right.
Qed.

(** ** Relation.build_multipolygon as a whole *)

Lemma build_multipolygon_unfold self ways s :
  build_multipolygon self ways s =
  match heap s !! self ≫= (λ o, Relation.members <$> as_relation o) with
  | None => (s, Raise (AttributeError "members"))
  | Some ms =>
      match for_members ways ms [] s with
      | (s', Ok ps) => (s', Ok (mkMultiPolygon ps))
      | (s', Raise e) => (s', Raise e)
      end
  end.
Proof.
  unfold build_multipolygon, get_members. rewrite run_bind, run_getattr.
  destruct (heap s !! self ≫= _) as [ms|]; [|done].
  rewrite run_bind. by destruct (for_members ways ms [] s) as [s' [ps|e]].
Qed.

Lemma build_multipolygon_relation self ways s r :
  heap s !! self = Some (ORelation r) →
  build_multipolygon self ways s =
  match for_members ways (Relation.members r) [] s with
  | (s', Ok ps) => (s', Ok (mkMultiPolygon ps))
  | (s', Raise e) => (s', Raise e)
  end.
Proof. intros Hr. by rewrite build_multipolygon_unfold, Hr. Qed.

Lemma build_multipolygon_extends self ways s :
  extends s (fst (build_multipolygon self ways s)).
Proof.
  rewrite build_multipolygon_unfold.
  destruct (heap s !! self ≫= _) as [ms|]; [|apply extends_refl].
  pose proof (for_members_extends ways ms [] s) as H.
  by destruct (for_members ways ms [] s) as [s' [ps|e]].
Qed.

(** ** C1 *)

(** C1.  When the mapping resolves every "way" member of the relation
    and each of these ways has a polygon to give (a cached one, or one
    [build_polygon] returns), [build_multipolygon] returns a multipolygon
    that holds exactly the polygons of the "way" members, one per
    member and in member order.  Members of another type are left out,
    a way named twice gives its polygon twice, and with no "way" member
    the multipolygon is empty. *)
Theorem build_multipolygon_way_members
    (s : state) (self : loc) (r : Relation.t) (W : gmap Z loc) :
  heap s !! self = Some (ORelation r) →
  Forall (λ m, is_Some (member_polygon W s m)) (way_members r) →
  ∃ ps,
    snd (build_multipolygon self W s) = Ok (mkMultiPolygon ps)
    ∧ Forall2 (λ m p, member_polygon W s m = Some p) (way_members r) ps
    ∧ length ps = length (way_members r)
    ∧ (∀ m, m ∈ way_members r
            ↔ m ∈ Relation.members r ∧ Member.type m = "way")
    ∧ (way_members r = [] → ps = []).
Proof.
  intros Hr Hall. unfold way_members in *.
  pose proof (for_members_result W (Relation.members r) [] s) as Hres.
  apply (mapM_is_Some_2 (member_polygon W s)) in Hall as [ps Hps].
  rewrite Hps in Hres. exists ps.
  apply mapM_Some in Hps.
  split; [|split; [done|split; [|split]]].
  - rewrite (build_multipolygon_relation _ _ _ _ Hr).
    by destruct (for_members W (Relation.members r) [] s) as [s' [ps'|e]];
      simpl in *; simplify_eq.
  - symmetry. by eapply Forall2_length.
  - intros m. rewrite !list_elem_of_In, filter_In. unfold is_way.
    by rewrite String.eqb_eq.
  - intros Hnil. rewrite Hnil in Hps. by inversion Hps.
Qed.

(** ** Resolving references *)

Lemma coordinates_resolved nodes refs s :
  (∀ k, k ∈ refs →
     ∃ l n, nodes !! k = Some l ∧ heap s !! l = Some (ONode n)) →
  ∃ cs, snd (coordinates nodes refs s) = Ok cs
    ∧ Forall2 (λ k c, ∃ l n, nodes !! k = Some l
                          ∧ heap s !! l = Some (ONode n)
                          ∧ c = (Node.lat n, Node.lon n)) refs cs.
Proof.
  induction refs as [|k refs IH]; intros Hall.
  { exists []. by split. }
  destruct IH as (cs & Hcs & Hall2).
  { intros k' Hk'. apply Hall. by right. }
  destruct (Hall k) as (l & n & Hk & Hl); [by left|].
  exists ((Node.lat n, Node.lon n) :: cs).
  rewrite coordinates_cons, Hk, Hl, Hcs. split; [done|].
  constructor; [|done]. by exists l, n.
Qed.


Lemma build_polygon_resolved self w nodes s :
  heap s !! self = Some (OWay w) →
  (∀ k, k ∈ Way.nodes w →
     ∃ l n, nodes !! k = Some l ∧ heap s !! l = Some (ONode n)) →
  ∃ cs, snd (build_polygon self nodes s) = Ok (mkPolygon cs)
    ∧ Forall2 (λ k c, ∃ l n, nodes !! k = Some l
                          ∧ heap s !! l = Some (ONode n)
                          ∧ c = (Node.lat n, Node.lon n)) (Way.nodes w) cs.
Proof.
  intros Hw Hall. rewrite build_polygon_unfold, Hw. cbn [snd mbind].
  destruct (coordinates_resolved nodes (Way.nodes w) (spied s self) Hall)
    as (cs & Hcs & Hall2).
  exists cs. simpl. by rewrite Hcs.
Qed.

Lemma relation_extends s t self r :
  extends s t → heap s !! self = Some (ORelation r) →
  heap t !! self = Some (ORelation r).
Proof.
  intros Hext Hr. pose proof (ext_frame _ _ Hext self) as H.
  rewrite Hr in H. destruct (heap t !! self) as [[n|w|r']|]; by simplify_eq/=.
Qed.

Lemma name_at_extends s t l : extends s t → name_at t l = name_at s l.
Proof.
  intros Hext. pose proof (ext_frame _ _ Hext l) as H. unfold name_at.
  destruct (heap s !! l) as [[n|[]|r]|], (heap t !! l) as [[n'|[]|r']|];
    by simplify_eq/=.
Qed.

(** ** C4 *)

(** C4.  For a way whose every node reference resolves, in the
    mapping, to a point, [build_polygon] returns a polygon whose
    boundary lists, in the order of the references, the pair
    (latitude, longitude) of each point; the sequence is handed over as
    it is, whatever its length or shape. *)
Theorem build_polygon_coordinates
    (s : state) (self : loc) (w : Way.t) (M : gmap Z loc) :
  heap s !! self = Some (OWay w) →
  (∀ k, k ∈ Way.nodes w →
     ∃ l n, M !! k = Some l ∧ heap s !! l = Some (ONode n)) →
  ∃ p,
    snd (build_polygon self M s) = Ok p
    ∧ Forall2 (λ k c, ∃ l n, M !! k = Some l
                          ∧ heap s !! l = Some (ONode n)
                          ∧ c = (Node.lat n, Node.lon n))
        (Way.nodes w) (shell p)
    ∧ length (shell p) = length (Way.nodes w).
Proof.
  intros Hw Hall.
  destruct (build_polygon_resolved self w M s Hw Hall) as (cs & Hp & H2).
  exists (mkPolygon cs). split; [done|]. split; [done|].
  symmetry. by eapply Forall2_length.
Qed.

(** ** C7 *)

(** C7.  [build_polygon] leaves the heap as it found it: the receiver,
    its [polygon] attribute included, and every other object are
    unchanged, whether the call returns or raises. *)
Theorem build_polygon_frame (s : state) (self : loc) (M : gmap Z loc) :
  heap (fst (build_polygon self M s)) = heap s.
Proof. by rewrite build_polygon_run. Qed.

(** ** C9 *)

(** C9.  For a way whose every node reference resolves to a point, two
    calls of [build_polygon] in a row, the second in the state the first
    left, return the same polygon. *)
Theorem build_polygon_twice
    (s : state) (self : loc) (w : Way.t) (M : gmap Z loc) :
  heap s !! self = Some (OWay w) →
  (∀ k, k ∈ Way.nodes w →
     ∃ l n, M !! k = Some l ∧ heap s !! l = Some (ONode n)) →
  ∃ p,
    snd (build_polygon self M s) = Ok p
    ∧ snd (build_polygon self M (fst (build_polygon self M s))) = Ok p.
Proof.
  intros Hw Hall.
  destruct (build_polygon_resolved self w M s Hw Hall) as (cs & Hp & _).
  exists (mkPolygon cs). split; [done|].
  rewrite <- Hp. apply build_polygon_erase.
  rewrite build_polygon_run. by intros l.
Qed.

(** ** The [multipolygon] attribute is not read *)

(** Two states that differ in [multipolygon] attributes only. *)
Lemma agree_clear_mp_way s t l w :
  agree clear_mp s t → heap s !! l = Some (OWay w) →
  heap t !! l = Some (OWay w).
Proof.
  intros H Hl. specialize (H l). rewrite Hl in H.
  destruct (heap t !! l) as [[n|w'|r']|]; by simplify_eq/=.
Qed.

Lemma cached_polygon_clear_mp l ways s t :
  agree clear_mp s t → calls s = calls t →
  snd (cached_polygon l ways s) = snd (cached_polygon l ways t)
  ∧ agree clear_mp (fst (cached_polygon l ways s))
                   (fst (cached_polygon l ways t))
  ∧ calls (fst (cached_polygon l ways s))
    = calls (fst (cached_polygon l ways t)).
Proof.
  intros H Hc. rewrite !cached_polygon_unfold.
  assert (Hb : snd (build_polygon l ways s) = snd (build_polygon l ways t)).
  { apply (build_polygon_agree clear_mp); [by intros []..|done]. }
  destruct (heap s !! l) as [[n|w|r]|] eqn:Hs;
    [same_class H l Hs| |same_class H l Hs..].
  rewrite (agree_clear_mp_way s t l w H Hs).
  destruct (Way.polygon w); [done|]. rewrite <- Hb.
  destruct (snd (build_polygon l ways s)); unfold spied;
    cbn [fst snd calls]; [|by rewrite Hc].
  split; [done|]. split; [|by rewrite Hc].
  intros l'. cbn [heap]. destruct (decide (l = l')) as [<-|Hne].
  - by rewrite !lookup_insert_eq.
  - rewrite !lookup_insert_ne by done. apply H.
Qed.

Lemma for_members_clear_mp ways ms acc s t :
  agree clear_mp s t → calls s = calls t →
  snd (for_members ways ms acc s) = snd (for_members ways ms acc t)
  ∧ agree clear_mp (fst (for_members ways ms acc s))
                   (fst (for_members ways ms acc t)).
Proof.
  revert acc s t. induction ms as [|m ms IH]; intros acc s t H Hc; [done|].
  rewrite !for_members_cons. destruct (is_way m); [|by apply IH].
  destruct (ways !! Member.ref m) as [l|]; [|done].
  destruct (cached_polygon_clear_mp l ways s t H Hc) as (Hr & Ha & Hc').
  destruct (cached_polygon l ways s) as [s1 [p|e]],
           (cached_polygon l ways t) as [t1 [p'|e']];
    simplify_eq/=; [by apply IH|done].
Qed.

(** ** C2 *)

(** A second call in the state a successful first call left: nothing is
    built, nothing is written, and the result is the same. *)
Lemma build_multipolygon_again self r ways s s1 mp :
  heap s !! self = Some (ORelation r) →
  build_multipolygon self ways s = (s1, Ok mp) →
  build_multipolygon self ways s1 = (s1, Ok mp).
Proof.
  intros Hr. rewrite (build_multipolygon_relation _ _ _ _ Hr).
  pose proof (for_members_extends ways (Relation.members r) [] s) as Hext.
  pose proof (for_members_result ways (Relation.members r) [] s) as Hres.
  pose proof (for_members_cached ways (Relation.members r) [] s) as Hc.
  pose proof (for_members_polygon_at ways (Relation.members r) [] s) as Hat.
  destruct (for_members ways (Relation.members r) [] s) as [s' [ps|e]];
    [|done].
  intros [= -> <-]. cbn [fst snd] in *.
  rewrite (build_multipolygon_relation _ _ _ r)
    by (by eapply relation_extends).
  pose proof (for_members_all_cached ways (Relation.members r) [] s1) as Hs.
  pose proof (for_members_result ways (Relation.members r) [] s1) as Hres1.
  rewrite (mapM_ext _ (member_polygon ways s)) in Hres1.
  2: { intros m. unfold member_polygon.
       destruct (ways !! Member.ref m); simpl; [apply Hat|done]. }
  destruct (mapM _ _) as [ps'|]; [|by destruct Hres].
  destruct (for_members ways (Relation.members r) [] s1) as [s2 [ps2|e]];
    cbn [fst snd] in *; [|done].
  rewrite Hs; [congruence|].
  intros m Hin Hm. by eapply Hc.
Qed.

Lemma uncached_not_cached s l : uncached s l → cached s l → False.
Proof. intros (w & Hw & Hp) (w' & p & Hw' & Hp'). congruence. Qed.

(** One step of the loop and the spy: the step either reads a populated
    cache, or calls [build_polygon] once on a way whose cache was empty
    and, when the call returns, leaves that cache populated and every
    other object alone. *)
Lemma cached_polygon_calls l0 ways s :
  match cached_polygon l0 ways s with
  | (s1, Ok p) =>
      (s1 = s ∧ cached s l0)
      ∨ (uncached s l0 ∧ calls s1 = calls s ++ [l0] ∧ cached s1 l0
         ∧ ∀ l, l ≠ l0 → heap s1 !! l = heap s !! l)
  | (s1, Raise e) =>
      heap s1 = heap s
      ∧ (calls s1 = calls s ∨ (calls s1 = calls s ++ [l0] ∧ uncached s l0))
  end.
Proof.
  rewrite cached_polygon_unfold.
  destruct (heap s !! l0) as [[n|w|r]|] eqn:Hl; try (split; [done|by left]).
  destruct (Way.polygon w) as [p|] eqn:Hp.
  { left. split; [done|]. by exists w, p. }
  destruct (snd (build_polygon l0 ways s)) as [p|e].
  - right. split; [by exists w|]. split; [done|]. split.
    + eexists _, p. cbn [heap]. by rewrite lookup_insert_eq.
    + intros l Hne. cbn [heap]. by rewrite lookup_insert_ne.
  - split; [done|]. right. split; [done|]. by exists w.
Qed.

(** The spy over the whole loop: [build_polygon] is called on ways
    whose cache was empty at the start, on none of them twice, and on
    each of them that ends up cached. *)
Lemma for_members_calls ways ms acc s :
  ∃ new,
    calls (fst (for_members ways ms acc s)) = calls s ++ new
    ∧ NoDup new
    ∧ (∀ l, l ∈ new → uncached s l)
    ∧ (∀ l, uncached s l → cached (fst (for_members ways ms acc s)) l →
         l ∈ new).
Proof.
  assert (Hstop : ∀ t, heap t = heap s → calls t = calls s →
            ∃ new, calls t = calls s ++ new ∧ NoDup new
              ∧ (∀ l, l ∈ new → uncached s l)
              ∧ (∀ l, uncached s l → cached t l → l ∈ new)).
  { intros t Hh Hc. exists []. rewrite app_nil_r.
    split; [done|]. split; [constructor|].
    split; [by intros l ?%elem_of_nil|].
    intros l Hu (w & p & Hw & Hp). rewrite Hh in Hw.
    destruct (uncached_not_cached s l Hu). by exists w, p. }
  revert acc s Hstop. induction ms as [|m ms IH]; intros acc s Hstop.
  { by apply Hstop. }
  rewrite for_members_cons. destruct (is_way m); [|by apply IH].
  destruct (ways !! Member.ref m) as [l0|]; [|by apply Hstop].
  pose proof (cached_polygon_calls l0 ways s) as Hstep.
  destruct (cached_polygon l0 ways s) as [s1 [p|e]]; cbn [fst].
  - destruct Hstep as [[-> _]|(Hu & Hc & Hcached & Hother)];
      [by apply IH|].
    destruct (IH (acc ++ [p]) s1) as (new1 & Hc1 & Hnd & Hin & Hall).
    { intros t Hh Hct. exists []. rewrite app_nil_r.
      split; [done|]. split; [constructor|].
      split; [by intros l ?%elem_of_nil|].
      intros l Hul (w & q & Hw & Hq). rewrite Hh in Hw.
      destruct (uncached_not_cached s1 l Hul). by exists w, q. }
    exists (l0 :: new1). split; [by rewrite Hc1, Hc, <- app_assoc|].
    split; [|split].
    + constructor; [|done]. intros Hmem.
      by destruct (uncached_not_cached s1 l0 (Hin l0 Hmem)).
    + intros l [->|Hmem]%elem_of_cons; [done|].
      destruct (Hin l Hmem) as (w & Hw & Hp).
      destruct (decide (l = l0)) as [->|Hne].
      * destruct (uncached_not_cached s1 l0); [by exists w|done].
      * exists w. by rewrite <- Hother.
    + intros l Hul Hcl. destruct (decide (l = l0)) as [->|Hne]; [by left|].
      right. apply Hall; [|done].
      destruct Hul as (w & Hw & Hp). exists w. by rewrite Hother.
  - destruct Hstep as [Hh [Hc|[Hc Hu]]]; [by apply Hstop|].
    exists [l0]. split; [done|]. split; [apply NoDup_singleton|].
    split; [by intros l ->%list_elem_of_singleton|].
    intros l Hul (w & q & Hw & Hq). rewrite Hh in Hw.
    destruct (uncached_not_cached s l Hul). by exists w, q.
Qed.

Lemma with_polygon_erase w w' :
  Way.with_polygon w None = Way.with_polygon w' None →
  w' = Way.with_polygon w (Way.polygon w').
Proof. destruct w, w'. unfold Way.with_polygon. cbn. congruence. Qed.

(** C2.  Let a "way" member of the relation resolve to the way [w] at
    [l], and let [new] be the calls of [build_polygon] that one call of
    [build_multipolygon] makes: they are on ways whose cache was empty,
    and on none of them twice.  With the cache of [w] empty and the
    call returning, [build_polygon] has been called on [w], with the
    mapping [build_multipolygon] was given; the polygon it returns is
    stored in the [polygon] attribute of [w] and stands at the member's
    place in the result.  With the cache populated, [build_polygon] is
    not called on [w], [w] is left as it is, and the cached polygon
    stands at the member's place in the result.  A second call in the
    state the first left calls [build_polygon] only on ways whose cache
    the first left empty, and after a first call that returned it calls
    none, changes nothing and returns the same. *)
Theorem build_multipolygon_cache_discipline
    (s : state) (self : loc) (r : Relation.t) (W : gmap Z loc)
    (s' : state) (res : result MultiPolygon)
    (m : Member.t) (l : loc) (w : Way.t) :
  heap s !! self = Some (ORelation r) →
  build_multipolygon self W s = (s', res) →
  m ∈ Relation.members r → Member.type m = "way" →
  W !! Member.ref m = Some l →
  heap s !! l = Some (OWay w) →
  ∃ new,
    calls s' = calls s ++ new ∧ NoDup new ∧ Forall (uncached s) new
    ∧ (Way.polygon w = None → ∀ mp, res = Ok mp →
         ∃ p, snd (build_polygon l W s) = Ok p
           ∧ l ∈ new
           ∧ heap s' !! l = Some (OWay (Way.with_polygon w (Some p)))
           ∧ ∀ i, way_members r !! i = Some m → geoms mp !! i = Some p)
    ∧ (∀ p, Way.polygon w = Some p →
         (l ∉ new)
         ∧ heap s' !! l = Some (OWay w)
         ∧ ∀ mp i, res = Ok mp → way_members r !! i = Some m →
             geoms mp !! i = Some p)
    ∧ (∀ mp, res = Ok mp → build_multipolygon self W s' = (s', Ok mp))
    ∧ (∀ s2 res2, build_multipolygon self W s' = (s2, res2) →
         ∃ new2, calls s2 = calls s' ++ new2 ∧ Forall (uncached s') new2).
Proof.
  intros Hr Hrun Hin Hm%String.eqb_eq Hl Hw.
  pose proof (build_multipolygon_extends self W s) as Hext.
  rewrite Hrun in Hext. cbn [fst] in Hext.
  assert (Hplace : ∀ mp i p, res = Ok mp → polygon_at W s l = Some p →
            way_members r !! i = Some m → geoms mp !! i = Some p).
  { intros mp i p -> Hat Hi. revert Hrun.
    rewrite (build_multipolygon_relation _ _ _ _ Hr).
    pose proof (for_members_result W (Relation.members r) [] s) as Hres.
    fold (way_members r) in Hres.
    destruct (for_members W (Relation.members r) [] s) as [s1 [ps|e]];
      [|done].
    intros [= -> <-]. cbn [geoms snd] in *.
    destruct (mapM _ _) as [ps'|] eqn:Hps; [|by destruct Hres].
    injection Hres as ->. apply mapM_Some in Hps.
    destruct (Forall2_lookup_l _ _ _ _ _ Hps Hi) as (p' & Hp' & Hmp).
    revert Hmp. unfold member_polygon. rewrite Hl. simpl. congruence. }
  assert (Hcalls : ∃ new, calls s' = calls s ++ new ∧ NoDup new
            ∧ (∀ l, l ∈ new → uncached s l)
            ∧ (∀ l, uncached s l → cached s' l → l ∈ new)).
  { revert Hrun. rewrite (build_multipolygon_relation _ _ _ _ Hr).
    pose proof (for_members_calls W (Relation.members r) [] s) as Hc.
    by destruct (for_members W (Relation.members r) [] s) as [s1 [ps|e]];
      intros [= -> <-]. }
  destruct Hcalls as (new & Hnew & Hnd & Hfresh & Hbuilt).
  exists new. split; [done|]. split; [done|].
  split; [by apply Forall_forall|]. split; [|split; [|split]].
  - intros Hp mp ->.
    assert (Hc : cached s' l).
    { revert Hrun. rewrite (build_multipolygon_relation _ _ _ _ Hr).
      pose proof (for_members_cached W (Relation.members r) [] s) as Hc.
      destruct (for_members W (Relation.members r) [] s) as [s1 [ps|e]];
        [|done].
      intros [= -> <-]. destruct (Hc ps m eq_refl Hin Hm) as (l' & Hl' & ?).
      cbn [fst] in *. congruence. }
    destruct Hc as (w' & p & Hw' & Hp').
    assert (Hat : polygon_at W s l = Some p).
    { revert Hrun. rewrite (build_multipolygon_relation _ _ _ _ Hr).
      pose proof (for_members_polygon_at W (Relation.members r) [] s l)
        as Hat.
      destruct (for_members W (Relation.members r) [] s) as [s1 [ps|e]];
        intros [= -> <-]; cbn [fst] in Hat.
      rewrite <- Hat. unfold polygon_at. by rewrite Hw', Hp'. }
    exists p. split; [|split; [|split]].
    + revert Hat. unfold polygon_at. rewrite Hw, Hp.
      by destruct (snd (build_polygon l W s)); intros [= ->].
    + apply Hbuilt; [by exists w|by exists w', p].
    + pose proof (ext_frame _ _ Hext l) as Hf. rewrite Hw, Hw' in Hf.
      assert (Hf' : Way.with_polygon w None = Way.with_polygon w' None).
      { unfold erase in Hf. simpl in Hf. congruence. }
      apply with_polygon_erase in Hf'. by rewrite Hw', Hf', Hp'.
    + intros i. by apply Hplace.
  - intros p Hp. split; [|split].
    + intros Hmem. destruct (uncached_not_cached s l (Hfresh l Hmem)).
      by exists w, p.
    + by eapply (ext_kept _ _ Hext).
    + intros mp i Hres. apply Hplace; [done|].
      unfold polygon_at. by rewrite Hw, Hp.
  - intros mp ->. by apply (build_multipolygon_again self r W s).
  - intros s2 res2 H2.
    pose proof (build_multipolygon_extends self W s') as Hext2.
    rewrite H2 in Hext2. apply (ext_calls _ _ Hext2).
Qed.

(** ** C3 *)


(** ** C5 *)

(** C5, as the code has it.  [p == q] holds exactly when [p] and [q]
    are of the same class and have the same [id]; no other attribute is
    looked at, and two elements of different classes are never equal,
    whatever their [id]. *)
Theorem py_eq_same_class_same_id (p q : obj) :
  py_eq p q = true ↔ class_of p = class_of q ∧ identity p = identity q.
Proof.
  destruct p, q; cbn; rewrite ?Z.eqb_eq; intuition congruence.
Qed.

(** ** C6 *)

(** C6, as the code has it.  A relation is constructed with no
    [multipolygon]; [build_multipolygon] returns the multipolygon and
    leaves the relation, its [multipolygon] attribute included, as it
    was, and what it returns does not depend on that attribute: the
    method neither fills nor reads it. *)
Theorem build_multipolygon_leaves_multipolygon
    (s : state) (self : loc) (r : Relation.t) (W : gmap Z loc) :
  heap s !! self = Some (ORelation r) →
  heap (fst (build_multipolygon self W s)) !! self = Some (ORelation r)
  ∧ (∀ mp,
       snd (build_multipolygon self W
              (set_heap s (<[self :=
                 ORelation (Relation.with_multipolygon r mp)]> (heap s))))
       = snd (build_multipolygon self W s))
  ∧ (∀ type id members tags,
       Relation.multipolygon (Relation.__init__ type id members tags) = None).
Proof.
  intros Hr. split; [|split; [|done]].
  - eapply relation_extends; [apply build_multipolygon_extends|done].
  - intros mp.
    set (t := set_heap s _).
    assert (Hagree : agree clear_mp t s).
    { intros l. subst t. cbn [set_heap heap].
      destruct (decide (self = l)) as [<-|Hne].
      - by rewrite lookup_insert_eq, Hr.
      - by rewrite lookup_insert_ne. }
    assert (Ht : heap t !! self
                 = Some (ORelation (Relation.with_multipolygon r mp))).
    { subst t. cbn [set_heap heap]. by rewrite lookup_insert_eq. }
    rewrite (build_multipolygon_relation _ _ _ _ Hr),
      (build_multipolygon_relation _ _ _ _ Ht).
    change (Relation.members (Relation.with_multipolygon r mp))
      with (Relation.members r).
    destruct (for_members_clear_mp W (Relation.members r) [] t s Hagree)
      as [Hres _]; [done|].
    destruct (for_members W (Relation.members r) [] t) as [t' [ps|e]],
             (for_members W (Relation.members r) [] s) as [s' [ps'|e']];
      by simplify_eq/=.
Qed.

(** ** C8 *)

(** C8.  The [name] of a way or relation, as the constructor sets it,
    is the value of the "name" tag when the tags are there and hold
    that key, and is [None] when there are no tags or no such key.
    Neither builder changes the [name] of any object afterwards. *)
Theorem derived_name :
  (∀ type id nodes tags,
     Way.name (Way.__init__ type id nodes tags) =
     match tags with Some d => d !! "name" | None => None end)
  ∧ (∀ type id members tags,
     Relation.name (Relation.__init__ type id members tags) =
     match tags with Some d => d !! "name" | None => None end)
  ∧ (∀ s self M l, name_at (fst (build_polygon self M s)) l = name_at s l)
  ∧ (∀ s self W l,
     name_at (fst (build_multipolygon self W s)) l = name_at s l).
Proof.
  assert (Hname : ∀ tags, name_of_tags tags =
            match tags with Some d => d !! "name" | None => None end).
  { intros [d|]; [|done]. unfold name_of_tags, truthy, contains.
    destruct (d !! "name") as [v|] eqn:Hv.
    - rewrite bool_decide_eq_false_2.
      + by rewrite bool_decide_eq_true_2.
      + intros ->. by rewrite lookup_empty in Hv.
    - rewrite (bool_decide_eq_false_2 (is_Some None)).
      + by rewrite andb_false_r.
      + by intros [? ?]. }
  split; [|split; [|split]].
  - intros. apply Hname.
  - intros. apply Hname.
  - intros. by rewrite build_polygon_run.
  - intros. apply name_at_extends, build_multipolygon_extends.
Qed.

(** ** C10 *)

(** C10.  When [build_multipolygon] fails at a member, after the
    members before it went through, the exception reaches the caller
    and the heap is the one those earlier members left: every "way"
    among them still has its cache populated, and nothing is undone. *)
Theorem build_multipolygon_not_atomic
    (s : state) (self : loc) (r : Relation.t) (W : gmap Z loc)
    (pre : list Member.t) (m : Member.t) (post : list Member.t)
    (s1 : state) (acc : list Polygon) (e : exn) :
  heap s !! self = Some (ORelation r) →
  Relation.members r = pre ++ m :: post →
  for_members W pre [] s = (s1, Ok acc) →
  snd (for_members W [m] acc s1) = Raise e →
  ∃ s',
    build_multipolygon self W s = (s', Raise e)
    ∧ heap s' = heap s1
    ∧ ∀ m', m' ∈ pre → is_way m' = true →
        ∃ l w p, W !! Member.ref m' = Some l
               ∧ heap s' !! l = Some (OWay w)
               ∧ Way.polygon w = Some p.
Proof.
  intros Hr Hms Hpre Hfail.
  assert (Hstep : ∃ s', for_members W (m :: post) acc s1 = (s', Raise e)
                        ∧ heap s' = heap s1).
  { revert Hfail. rewrite !for_members_cons.
    destruct (is_way m); [|done].
    destruct (W !! Member.ref m) as [l|]; [|intros [= <-]; by eexists].
    rewrite cached_polygon_unfold.
    destruct (heap s1 !! l) as [[n|w|r']|];
      try (intros [= <-]; by eexists).
    destruct (Way.polygon w); [done|].
    destruct (snd (build_polygon l W s1)); [done|].
    intros [= <-]. by eexists. }
  destruct Hstep as (s' & Hs' & Hheap). exists s'.
  rewrite (build_multipolygon_relation _ _ _ _ Hr), Hms, for_members_app,
    Hpre, Hs'.
  split; [done|]. split; [done|].
  intros m' Hin Hm'.
  destruct (for_members_cached W pre [] s acc m') as (l & Hl & Hc);
    [by rewrite Hpre|done|done|].
  rewrite Hpre in Hc. destruct Hc as (w & p & Hw & Hp).
  exists l, w, p. by rewrite Hheap.
Qed.

(** ** The data set, run *)

(** The ring of §8: four references, four pairs, in order. *)
Example ring_polygon :
  snd (build_polygon 4 example_points example_state) = Ok ring.
Proof. vm_compute. reflexivity. Qed.

(** A reference the mapping does not hold. *)
Example way12_dangling :
  snd (build_polygon 6 example_points example_state) = Raise (KeyError 4).
Proof. vm_compute. reflexivity. Qed.

(** Way 10 is built once and given twice, way 11 gives its cached
    polygon, the "node" member gives nothing. *)
Example relation7_runs :
  snd (build_multipolygon 7 example_mapping example_state)
  = Ok (mkMultiPolygon [ring; stale; ring])
  ∧ calls (fst (build_multipolygon 7 example_mapping example_state))
    = [4%positive].
Proof. vm_compute. split; reflexivity. Qed.

(** A nested [build_polygon] fails: its [KeyError] comes out as it
    is, and way 10, built before, keeps its polygon. *)
Example relation9_nested_failure :
  snd (build_multipolygon 9 example_mapping example_state)
  = Raise (KeyError 4)
  ∧ heap (fst (build_multipolygon 9 example_mapping example_state))
      !! 4%positive
    = Some (OWay (Way.with_polygon way10 (Some ring))).
Proof. vm_compute. split; reflexivity. Qed.

(** The three cases of the derived name. *)
Example derived_names :
  Way.name way10 = Some "Park"
  ∧ Way.name (Way.__init__ "way" 1 [] None) = None
  ∧ Way.name (Way.__init__ "way" 1 [] (Some {[ "highway" := "path" ]}))
    = None
  ∧ Relation.name (Relation.__init__ "relation" 1 [] (Some ∅)) = None.
Proof. vm_compute. repeat split. Qed.

(** No member, no polygon, no error. *)
Example no_members :
  snd (build_multipolygon 1
         (∅ : gmap Z loc)
         (mkState {[ 1%positive :=
            ORelation (Relation.__init__ "relation" 1 [] None) ]} []))
  = Ok (mkMultiPolygon []).
Proof. vm_compute. reflexivity. Qed.

(** ** Instances of the theorems *)

Lemma relation7_way_members :
  ∃ ps,
    snd (build_multipolygon 7 example_mapping example_state)
    = Ok (mkMultiPolygon ps)
    ∧ length ps = 3%nat.
Proof.
  destruct (build_multipolygon_way_members example_state 7 relation7
              example_mapping) as (ps & Hps & _ & Hlen & _).
  - reflexivity.
  - repeat constructor; eexists; vm_compute; reflexivity.
  - exists ps. split; [exact Hps|exact Hlen].
Defined.

Lemma relation7_second_call :
  ∃ s' mp p,
    build_multipolygon 7 example_mapping example_state = (s', Ok mp)
    ∧ snd (build_polygon 4 example_mapping example_state) = Ok p
    ∧ heap s' !! 4%positive = Some (OWay (Way.with_polygon way10 (Some p)))
    ∧ geoms mp !! 0%nat = Some p
    ∧ geoms mp !! 1%nat = Some stale
    ∧ build_multipolygon 7 example_mapping s' = (s', Ok mp).
Proof.
  pose (s' := fst (build_multipolygon 7 example_mapping example_state)).
  pose (mp := mkMultiPolygon [ring; stale; ring]).
  assert (Hrun : build_multipolygon 7 example_mapping example_state
                 = (s', Ok mp)).
  { vm_compute. reflexivity. }
  destruct (build_multipolygon_cache_discipline example_state 7 relation7
              example_mapping s' (Ok mp) (Member.mk "way" 10) 4 way10)
    as (new & _ & _ & _ & Hbuilt & _ & Hagain & _).
  { reflexivity. }
  { exact Hrun. }
  { apply list_elem_of_In. left. reflexivity. }
  { reflexivity. }
  { reflexivity. }
  { reflexivity. }
  destruct (build_multipolygon_cache_discipline example_state 7 relation7
              example_mapping s' (Ok mp) (Member.mk "way" 11) 5 way11)
    as (new' & _ & _ & _ & _ & Hcached & _).
  { reflexivity. }
  { exact Hrun. }
  { apply list_elem_of_In. right. right. left. reflexivity. }
  { reflexivity. }
  { reflexivity. }
  { reflexivity. }
  destruct (Hbuilt eq_refl mp eq_refl) as (p & Hp & _ & Hstored & Hplace).
  destruct (Hcached stale eq_refl) as (_ & _ & Hplace').
  exists s', mp, p. split; [exact Hrun|]. split; [exact Hp|].
  split; [exact Hstored|]. split; [apply Hplace; reflexivity|].
  split; [apply (Hplace' mp 1%nat); reflexivity|].
  apply Hagain. reflexivity.
Defined.


Lemma ring_coordinates :
  ∃ p,
    snd (build_polygon 4 example_points example_state) = Ok p
    ∧ length (shell p) = 4%nat.
Proof.
  destruct (build_polygon_coordinates example_state 4 way10 example_points)
    as (p & Hp & _ & Hlen).
  - reflexivity.
  - resolve_refs.
  - exists p. split; [exact Hp|exact Hlen].
Defined.

Lemma ring_built_twice :
  ∃ p,
    snd (build_polygon 4 example_points example_state) = Ok p
    ∧ snd (build_polygon 4 example_points
             (fst (build_polygon 4 example_points example_state))) = Ok p.
Proof.
  apply (build_polygon_twice example_state 4 way10 example_points).
  - reflexivity.
  - resolve_refs.
Defined.

Lemma relation7_untouched :
  heap (fst (build_multipolygon 7 example_mapping example_state))
    !! 7%positive = Some (ORelation relation7).
Proof.
  apply (build_multipolygon_leaves_multipolygon example_state 7 relation7
           example_mapping).
  reflexivity.
Defined.

Lemma relation8_keeps_caches :
  ∃ s',
    build_multipolygon 8 example_mapping example_state
    = (s', Raise (KeyError 99))
    ∧ (∃ w p, heap s' !! 4%positive = Some (OWay w)
              ∧ Way.polygon w = Some p)
    ∧ uncached example_state 4.
Proof.
  edestruct (build_multipolygon_not_atomic example_state 8 relation8
               example_mapping [Member.mk "way" 10] (Member.mk "way" 99)
               [Member.mk "way" 11])
    as (s' & Hrun & _ & Hkept).
  - reflexivity.
  - reflexivity.
  - vm_compute. reflexivity.
  - vm_compute. reflexivity.
  - exists s'. split; [exact Hrun|]. split.
    + destruct (Hkept (Member.mk "way" 10)) as (l & w & p & Hl & Hw & Hp).
      * apply list_elem_of_In. left. reflexivity.
      * reflexivity.
      * injection Hl as <-. by exists w, p.
    + exists way10. split; reflexivity.
Defined.

(** ** Where the code departs from the specification *)


(** C5: a point and a way with the same identifier are not equal. *)
Lemma py_eq_across_classes :
  identity node_10 = identity way_10 ∧ py_eq node_10 way_10 = false
  ∧ py_eq way_10 node_10 = false.
Proof. repeat split. Qed.

(** C6: the call returned a multipolygon and the relation's
    [multipolygon] is still [None]. *)
Lemma multipolygon_never_populated :
  snd (build_multipolygon 7 example_mapping example_state)
  = Ok (mkMultiPolygon [ring; stale; ring])
  ∧ Relation.multipolygon <$>
      (heap (fst (build_multipolygon 7 example_mapping example_state))
         !! 7%positive ≫= as_relation)
    = Some None.
Proof. vm_compute. split; reflexivity. Qed.

(** * Further properties of the builders and of equality *)

(** ** The comprehension of line 100, reference by reference *)

Lemma coordinates_cons_of nodes k refs s :
  snd (coordinates nodes (k :: refs) s) =
  match coordinate_of s nodes k with
  | Ok c =>
      match snd (coordinates nodes refs s) with
      | Ok cs => Ok (c :: cs)
      | Raise e => Raise e
      end
  | Raise e => Raise e
  end.
Proof.
  rewrite coordinates_cons. unfold coordinate_of.
  destruct (nodes !! k) as [l|]; [|done].
  by destruct (heap s !! l ≫= as_node).
Qed.

Lemma coordinates_Ok nodes refs s cs :
  snd (coordinates nodes refs s) = Ok cs
  ↔ Forall2 (λ k c, coordinate_of s nodes k = Ok c) refs cs.
Proof.
  revert cs. induction refs as [|k refs IH]; intros cs.
  { split; [intros [= <-]; constructor|by inversion 1]. }
  rewrite coordinates_cons_of. split.
  - destruct (coordinate_of s nodes k) as [c|e] eqn:Hk; [|done].
    destruct (snd (coordinates nodes refs s)) as [cs'|e]; [|done].
    intros [= <-]. constructor; [done|]. by apply IH.
  - inversion 1 as [|k' c refs' cs' Hk Hrest]; subst.
    rewrite Hk. apply IH in Hrest. by rewrite Hrest.
Qed.

Lemma coordinates_first_failure nodes pre k post s e :
  Forall (λ k', ∃ c, coordinate_of s nodes k' = Ok c) pre →
  coordinate_of s nodes k = Raise e →
  snd (coordinates nodes (pre ++ k :: post) s) = Raise e.
Proof.
  intros Hpre Hk. induction Hpre as [|k' pre [c Hc] _ IH]; simpl app.
  - by rewrite coordinates_cons_of, Hk.
  - by rewrite coordinates_cons_of, Hc, IH.
Qed.

Lemma coordinates_Raise nodes refs s e :
  snd (coordinates nodes refs s) = Raise e →
  ∃ pre k post, refs = pre ++ k :: post
    ∧ Forall (λ k', ∃ c, coordinate_of s nodes k' = Ok c) pre
    ∧ coordinate_of s nodes k = Raise e.
Proof.
  induction refs as [|k refs IH]; [done|].
  rewrite coordinates_cons_of.
  destruct (coordinate_of s nodes k) as [c|e'] eqn:Hk.
  - destruct (snd (coordinates nodes refs s)) as [cs|e'] eqn:Hr; [done|].
    intros [= ->]. destruct (IH eq_refl) as (pre & k' & post & -> & Hp & He).
    exists (k :: pre), k', post. split; [done|]. split; [|done].
    constructor; [by exists c|done].
  - intros [= ->]. exists [], k, refs. by repeat split.
Qed.

Lemma build_polygon_way self w nodes s :
  heap s !! self = Some (OWay w) →
  snd (build_polygon self nodes s) =
  match snd (coordinates nodes (Way.nodes w) (spied s self)) with
  | Ok cs => Ok (mkPolygon cs)
  | Raise e => Raise e
  end.
Proof. intros Hw. by rewrite build_polygon_unfold, Hw. Qed.

(** X1.  How [build_polygon] depends on the references resolving.
    When it returns, every node reference of the way gave a coordinate
    pair and the boundary is these pairs in order.  When a reference
    gives none, and those before it do, the call raises what that
    reference raises: [KeyError] for a reference the mapping does not
    hold, [AttributeError] on [lat] for one the mapping gives to
    something that is no point. *)
Theorem build_polygon_outcome
    (s : state) (self : loc) (w : Way.t) (M : gmap Z loc) :
  heap s !! self = Some (OWay w) →
  (∀ p, snd (build_polygon self M s) = Ok p →
        Forall2 (λ k c, coordinate_of s M k = Ok c)
          (Way.nodes w) (shell p))
  ∧ (∀ pre k post,
       Way.nodes w = pre ++ k :: post →
       Forall (λ k', ∃ c, coordinate_of s M k' = Ok c) pre →
       (M !! k = None →
          snd (build_polygon self M s) = Raise (KeyError k))
       ∧ (∀ l, M !! k = Some l → heap s !! l ≫= as_node = None →
          snd (build_polygon self M s) = Raise (AttributeError "lat"))).
Proof.
  intros Hw. rewrite (build_polygon_way _ _ _ _ Hw). split.
  - intros [cs]. cbn [shell].
    rewrite <- (coordinates_Ok M (Way.nodes w) (spied s self) cs).
    by destruct (snd (coordinates M (Way.nodes w) (spied s self)));
      intros [= ->].
  - intros pre k post -> Hpre. split.
    + intros Hk.
      rewrite (coordinates_first_failure M pre k post (spied s self)
                 (KeyError k)); [done|done|].
      unfold coordinate_of. by rewrite Hk.
    + intros l Hk Hl.
      rewrite (coordinates_first_failure M pre k post (spied s self)
                 (AttributeError "lat")); [done|done|].
      unfold coordinate_of. rewrite Hk. cbn [heap spied]. by rewrite Hl.
Qed.

(** X2.  Equal references give equal pairs: when [build_polygon]
    returns, two positions of the way that hold the same reference hold
    the same coordinate pair in the boundary; a way that ends on the
    reference it starts with gives a boundary that ends on the pair it
    starts with. *)
Theorem build_polygon_closed_ring
    (s : state) (self : loc) (w : Way.t) (M : gmap Z loc) (p : Polygon) :
  heap s !! self = Some (OWay w) →
  snd (build_polygon self M s) = Ok p →
  (∀ i j k, Way.nodes w !! i = Some k → Way.nodes w !! j = Some k →
     is_Some (shell p !! i) ∧ shell p !! i = shell p !! j)
  ∧ (last (Way.nodes w) = head (Way.nodes w) →
     last (shell p) = head (shell p)).
Proof.
  intros Hw Hp. rewrite (build_polygon_way _ _ _ _ Hw) in Hp.
  destruct (snd (coordinates M (Way.nodes w) (spied s self)))
    as [cs|e] eqn:Hc; [|done]. injection Hp as <-. cbn [shell].
  apply coordinates_Ok in Hc.
  assert (Hsame : ∀ i j k,
            Way.nodes w !! i = Some k → Way.nodes w !! j = Some k →
            is_Some (cs !! i) ∧ cs !! i = cs !! j).
  { intros i j k Hi Hj.
    destruct (Forall2_lookup_l _ _ _ _ _ Hc Hi) as (ci & Hci & Hki).
    destruct (Forall2_lookup_l _ _ _ _ _ Hc Hj) as (cj & Hcj & Hkj).
    rewrite Hci, Hcj. split; [by eexists|]. congruence. }
  split; [done|].
  pose proof (Forall2_length _ _ _ Hc) as Hlen.
  rewrite !last_lookup, !head_lookup, <- Hlen. intros Hring.
  destruct (Way.nodes w !! 0%nat) as [k|] eqn:H0.
  - by apply (Hsame _ _ k).
  - apply lookup_ge_None in H0.
    rewrite !(proj2 (lookup_ge_None _ _)); [done|lia..].
Qed.

(** ** Over a mapping that holds ways only *)

Lemma coordinate_of_way s ways k :
  ways_mapping s ways →
  coordinate_of s ways k =
  Raise (match ways !! k with
         | None => KeyError k
         | Some _ => AttributeError "lat"
         end).
Proof.
  intros Hways. unfold coordinate_of.
  destruct (ways !! k) as [l|] eqn:Hk; [|done].
  destruct (Hways k l Hk) as [w Hl].
  by destruct (heap s !! l) as [[]|].
Qed.

Lemma build_polygon_ways_only self w ways s :
  ways_mapping s ways →
  heap s !! self = Some (OWay w) →
  snd (build_polygon self ways s) =
  match Way.nodes w with
  | [] => Ok (mkPolygon [])
  | k :: _ =>
      Raise (match ways !! k with
             | None => KeyError k
             | Some _ => AttributeError "lat"
             end)
  end.
Proof.
  intros Hways Hw. rewrite (build_polygon_way _ _ _ _ Hw).
  destruct (Way.nodes w) as [|k refs]; [done|].
  rewrite coordinates_cons_of.
  by rewrite (coordinate_of_way (spied s self) ways k Hways).
Qed.

(** X3.  Handed a mapping that holds ways only, as line 170 hands it,
    [build_polygon] cannot build a boundary with a point in it: a way
    with no node gives the empty boundary, and any other way raises on
    its first reference, [KeyError] when the mapping does not hold it
    and [AttributeError] on [lat] when it does. *)
Theorem build_polygon_over_ways
    (s : state) (self : loc) (w : Way.t) (W : gmap Z loc) :
  ways_mapping s W →
  heap s !! self = Some (OWay w) →
  snd (build_polygon self W s) =
  match Way.nodes w with
  | [] => Ok (mkPolygon [])
  | k :: _ =>
      Raise (match W !! k with
             | None => KeyError k
             | Some _ => AttributeError "lat"
             end)
  end.
Proof. apply build_polygon_ways_only. Qed.

Lemma Forall_iff_elem {A} (P Q : A → Prop) (l : list A) :
  (∀ x, x ∈ l → P x ↔ Q x) → Forall P l ↔ Forall Q l.
Proof.
  intros H. rewrite !Forall_forall. split; intros HP x Hx.
  - by apply H, HP.
  - by apply H, HP.
Qed.

Lemma build_multipolygon_returns self r ways s :
  heap s !! self = Some (ORelation r) →
  (∃ mp, snd (build_multipolygon self ways s) = Ok mp)
  ↔ Forall (λ m, is_Some (member_polygon ways s m)) (way_members r).
Proof.
  intros Hr. rewrite (build_multipolygon_relation _ _ _ _ Hr).
  pose proof (for_members_result ways (Relation.members r) [] s) as Hres.
  fold (way_members r) in Hres.
  rewrite <- (mapM_is_Some (member_polygon ways s)).
  destruct (for_members ways (Relation.members r) [] s) as [s' [ps|e]];
    destruct (mapM _ _) as [ps'|]; cbn [snd] in *.
  - split; [by eexists|by eexists].
  - by destruct Hres.
  - done.
  - split; [by intros [? ?]|by intros [? ?]].
Qed.

(** X4.  Over a mapping that holds ways only, [build_multipolygon]
    returns exactly when every "way" member resolves and its way has
    its polygon cached already or has no node; a single uncached way
    with a node makes the call raise. *)
Theorem build_multipolygon_over_ways
    (s : state) (self : loc) (r : Relation.t) (W : gmap Z loc) :
  ways_mapping s W →
  heap s !! self = Some (ORelation r) →
  (∃ mp, snd (build_multipolygon self W s) = Ok mp)
  ↔ Forall (λ m, ∃ l w, W !! Member.ref m = Some l
                        ∧ heap s !! l = Some (OWay w)
                        ∧ (is_Some (Way.polygon w) ∨ Way.nodes w = []))
      (way_members r).
Proof.
  intros Hways Hr. rewrite (build_multipolygon_returns _ _ _ _ Hr).
  apply Forall_iff_elem. intros m _. unfold member_polygon, polygon_at.
  destruct (W !! Member.ref m) as [l|] eqn:Hl; simpl.
  2: { split; [by intros [? ?]|by intros (? & ? & ? & _)]. }
  destruct (heap s !! l) as [[n|w|r']|] eqn:Hh.
  1,3,4: split; [by intros [? ?]|intros (? & ? & ? & ? & _); congruence].
  rewrite (build_polygon_ways_only l w W s Hways Hh). split.
  - intros Hsome. exists l, w. split; [done|]. split; [done|].
    destruct (Way.polygon w); [left; by eexists|right].
    destruct (Way.nodes w); [done|by destruct Hsome].
  - intros (l' & w' & Hl' & Hw' & Hor).
    assert (w' = w) as -> by congruence.
    destruct (Way.polygon w); [by eexists|].
    destruct Hor as [[? ?]| ->]; [done|by eexists].
Qed.

(** ** What a call writes *)

Lemma cached_polygon_written l0 ways s l :
  heap (fst (cached_polygon l0 ways s)) !! l = heap s !! l
  ∨ (l = l0 ∧ ∃ w p,
       heap s !! l = Some (OWay w) ∧ Way.polygon w = None
       ∧ snd (build_polygon l ways s) = Ok p
       ∧ heap (fst (cached_polygon l0 ways s)) !! l
         = Some (OWay (Way.with_polygon w (Some p)))).
Proof.
  rewrite cached_polygon_unfold.
  destruct (heap s !! l0) as [[n|w|r]|] eqn:Hl0; try by left.
  destruct (Way.polygon w) as [p|] eqn:Hp; [by left|].
  destruct (snd (build_polygon l0 ways s)) as [p|e] eqn:Hb; [|by left].
  cbn [fst heap]. destruct (decide (l0 = l)) as [<-|Hne].
  - right. split; [done|]. exists w, p. by rewrite lookup_insert_eq.
  - left. by rewrite lookup_insert_ne.
Qed.

Lemma for_members_written ways ms acc s l :
  heap (fst (for_members ways ms acc s)) !! l = heap s !! l
  ∨ ∃ m w p,
      m ∈ ms ∧ is_way m = true ∧ ways !! Member.ref m = Some l
      ∧ heap s !! l = Some (OWay w) ∧ Way.polygon w = None
      ∧ snd (build_polygon l ways s) = Ok p
      ∧ heap (fst (for_members ways ms acc s)) !! l
        = Some (OWay (Way.with_polygon w (Some p))).
Proof.
  revert acc s. induction ms as [|m ms IH]; intros acc s; [by left|].
  rewrite for_members_cons. destruct (is_way m) eqn:Hm.
  2: { destruct (IH acc s) as [?|(m' & w & p & Hin & H)]; [by left|].
       right. exists m', w, p. split; [by right|done]. }
  destruct (ways !! Member.ref m) as [l0|] eqn:Hl0; [|by left].
  pose proof (cached_polygon_written l0 ways s l) as Hstep.
  pose proof (cached_polygon_extends l0 ways s) as Hext.
  destruct (cached_polygon l0 ways s) as [s1 [p0|e]]; cbn [fst] in *.
  2: { destruct Hstep as [?|(-> & w & p & ? & ? & ? & ?)]; [by left|].
       right. exists m, w, p. split; [by left|done]. }
  destruct (IH (acc ++ [p0]) s1) as [Hsame|(m' & w & p & Hin & Hm' & Hr & Hw
    & Hp & Hb & Hfin)].
  - rewrite Hsame.
    destruct Hstep as [?|(-> & w & p & ? & ? & ? & ?)]; [by left|].
    right. exists m, w, p. split; [by left|done].
  - right. exists m', w, p. split; [by right|].
    split; [done|]. split; [done|].
    assert (Hs : heap s !! l = Some (OWay w)).
    { destruct Hstep as [<-|(_ & w0 & p1 & _ & _ & _ & Hst)]; [done|].
      rewrite Hst in Hw. injection Hw as <-. done. }
    split; [done|]. split; [done|]. split; [|done].
    rewrite <- Hb. apply build_polygon_erase, (ext_frame _ _ Hext).
Qed.

(** X5.  [build_multipolygon] writes to nothing but the [polygon]
    attribute of ways that a "way" member names through the mapping and
    whose cache was empty; what it stores there is the polygon
    [build_polygon] returns for that way at the start of the call.
    Every other object, points and relations and cached ways, is left
    as it was, whether the call returns or raises. *)
Theorem build_multipolygon_writes
    (s : state) (self : loc) (r : Relation.t) (W : gmap Z loc) (l : loc) :
  heap s !! self = Some (ORelation r) →
  heap (fst (build_multipolygon self W s)) !! l = heap s !! l
  ∨ ∃ m w p,
      m ∈ Relation.members r ∧ Member.type m = "way"
      ∧ W !! Member.ref m = Some l
      ∧ heap s !! l = Some (OWay w) ∧ Way.polygon w = None
      ∧ snd (build_polygon l W s) = Ok p
      ∧ heap (fst (build_multipolygon self W s)) !! l
        = Some (OWay (Way.with_polygon w (Some p))).
Proof.
  intros Hr. rewrite (build_multipolygon_relation _ _ _ _ Hr).
  pose proof (for_members_written W (Relation.members r) [] s l) as H.
  destruct (for_members W (Relation.members r) [] s) as [s' [ps|e]];
    cbn [fst] in *.
  all: destruct H as [?|(m & w & p & ? & Hm & ?)]; [by left|].
  all: right; exists m, w, p; split; [done|].
  all: split; [by apply String.eqb_eq|done].
Qed.

(** ** The result and the caches the call leaves *)

Lemma Forall2_impl_elem {A B} (P Q : A → B → Prop) l k :
  Forall2 P l k → (∀ x y, x ∈ l → P x y → Q x y) → Forall2 Q l k.
Proof.
  induction 1 as [|x y l k Hxy _ IH]; intros HPQ; constructor.
  - apply HPQ; [by left|done].
  - apply IH. intros x' y' Hin. apply HPQ. by right.
Qed.

Lemma elem_of_way_members m r :
  m ∈ way_members r ↔ m ∈ Relation.members r ∧ is_way m = true.
Proof. unfold way_members. by rewrite !list_elem_of_In, filter_In. Qed.

(** X6.  When [build_multipolygon] returns, the polygons of the
    result are, member by member, the polygons the ways hold in their
    caches after the call: the multipolygon and the caches left behind
    agree. *)
Theorem build_multipolygon_result_cached
    (s : state) (self : loc) (r : Relation.t) (W : gmap Z loc)
    (s' : state) (mp : MultiPolygon) :
  heap s !! self = Some (ORelation r) →
  build_multipolygon self W s = (s', Ok mp) →
  Forall2 (λ m p, ∃ l, W !! Member.ref m = Some l
                     ∧ polygon_of s' l = Some p)
    (way_members r) (geoms mp).
Proof.
  intros Hr. rewrite (build_multipolygon_relation _ _ _ _ Hr).
  pose proof (for_members_result W (Relation.members r) [] s) as Hres.
  pose proof (for_members_cached W (Relation.members r) [] s) as Hc.
  pose proof (for_members_polygon_at W (Relation.members r) [] s) as Hat.
  destruct (for_members W (Relation.members r) [] s) as [s1 [ps|e]];
    [|done].
  intros [= -> <-]. cbn [fst snd geoms] in *.
  fold (way_members r) in Hres.
  destruct (mapM _ _) as [ps'|] eqn:Hps; [|by destruct Hres].
  injection Hres as <-. apply mapM_Some in Hps.
  eapply Forall2_impl_elem; [apply Hps|].
  intros m p [Hin Hm]%elem_of_way_members Hmp.
  destruct (Hc ps m eq_refl Hin Hm) as (l & Hl & w & p' & Hw & Hp').
  exists l. split; [done|]. unfold polygon_of. rewrite Hw. simpl.
  rewrite Hp'. revert Hmp. unfold member_polygon. rewrite Hl. simpl.
  rewrite <- Hat. unfold polygon_at. rewrite Hw, Hp'. congruence.
Qed.

(** X7.  A relation whose "way" members all resolve to ways with a
    populated cache builds from the caches alone: the call returns
    their polygons in member order, calls [build_polygon] on nothing
    and leaves the state as it was.  The mapping need not hold a single
    point, and the polygons are the cached ones whatever the points
    are now. *)
Theorem build_multipolygon_all_cached
    (s : state) (self : loc) (r : Relation.t) (W : gmap Z loc) :
  heap s !! self = Some (ORelation r) →
  Forall (λ m, ∃ l, W !! Member.ref m = Some l ∧ cached s l)
    (way_members r) →
  ∃ ps,
    build_multipolygon self W s = (s, Ok (mkMultiPolygon ps))
    ∧ Forall2 (λ m p, ∃ l, W !! Member.ref m = Some l
                         ∧ polygon_of s l = Some p)
        (way_members r) ps.
Proof.
  intros Hr Hall. rewrite Forall_forall in Hall.
  assert (Hmp : ∀ m, m ∈ way_members r →
            ∃ l p, W !! Member.ref m = Some l ∧ polygon_of s l = Some p
                   ∧ member_polygon W s m = Some p).
  { intros m Hin. destruct (Hall m Hin) as (l & Hl & w & p & Hw & Hp).
    exists l, p. unfold polygon_of, member_polygon, polygon_at.
    rewrite Hl. simpl. rewrite !Hw. simpl. by rewrite !Hp. }
  pose proof (for_members_result W (Relation.members r) [] s) as Hres.
  pose proof (for_members_all_cached W (Relation.members r) [] s) as Hs.
  fold (way_members r) in Hres.
  destruct (mapM _ _) as [ps|] eqn:Hps.
  2: { apply mapM_None in Hps. apply Exists_exists in Hps as (m & Hin & Hn).
       destruct (Hmp m Hin) as (? & ? & _ & _ & ?). congruence. }
  exists ps. split.
  - rewrite (build_multipolygon_relation _ _ _ _ Hr).
    destruct (for_members W (Relation.members r) [] s) as [s1 [ps1|e]];
      cbn [fst snd] in *; [|done].
    injection Hres as ->. simpl. rewrite Hs; [done|].
    intros m Hin Hm. apply Hall, elem_of_way_members. by split.
  - apply mapM_Some in Hps. eapply Forall2_impl_elem; [apply Hps|].
    intros m p Hin Hp. destruct (Hmp m Hin) as (l & p' & Hl & Hpl & Hp').
    exists l. split; [done|]. congruence.
Qed.

(** ** Which member a failure comes from *)

Lemma not_way_extends s t l :
  extends s t → heap t !! l ≫= as_way = None → heap s !! l ≫= as_way = None.
Proof.
  intros Hext. pose proof (ext_frame _ _ Hext l) as H.
  destruct (heap s !! l) as [[n|w|r]|], (heap t !! l) as [[n'|w'|r']|];
    by simplify_eq/=.
Qed.

Lemma for_members_failure ways ms acc s e :
  snd (for_members ways ms acc s) = Raise e →
  ∃ m, m ∈ ms ∧ is_way m = true
    ∧ ((ways !! Member.ref m = None ∧ e = KeyError (Member.ref m))
       ∨ (∃ l, ways !! Member.ref m = Some l
             ∧ heap s !! l ≫= as_way = None
             ∧ e = AttributeError "polygon")
       ∨ (∃ l, ways !! Member.ref m = Some l ∧ uncached s l
             ∧ snd (build_polygon l ways s) = Raise e)).
Proof.
  revert acc s. induction ms as [|m ms IH]; intros acc s; [done|].
  assert (Hlater : ∀ acc' s1, extends s s1 →
            snd (for_members ways ms acc' s1) = Raise e →
            ∃ m', m' ∈ m :: ms ∧ is_way m' = true
              ∧ ((ways !! Member.ref m' = None ∧ e = KeyError (Member.ref m'))
                 ∨ (∃ l, ways !! Member.ref m' = Some l
                       ∧ heap s !! l ≫= as_way = None
                       ∧ e = AttributeError "polygon")
                 ∨ (∃ l, ways !! Member.ref m' = Some l ∧ uncached s l
                       ∧ snd (build_polygon l ways s) = Raise e))).
  { intros acc' s1 Hext Hfail.
    destruct (IH acc' s1 Hfail) as (m' & Hin & Hm' & Hcase).
    exists m'. split; [by right|]. split; [done|].
    destruct Hcase as [?|[(l & Hl & Hnw & ->)|(l & Hl & Hu & Hb)]].
    - by left.
    - right; left. exists l. split; [done|]. split; [|done].
      by eapply not_way_extends.
    - right; right. exists l. split; [done|].
      split; [by eapply uncached_extends|].
      rewrite <- Hb. apply build_polygon_erase, (ext_frame _ _ Hext). }
  rewrite for_members_cons. destruct (is_way m) eqn:Hm.
  2: { apply Hlater, extends_refl. }
  destruct (ways !! Member.ref m) as [l|] eqn:Hl.
  2: { intros [= <-]. exists m. split; [by left|]. split; [done|]. by left. }
  pose proof (cached_polygon_extends l ways s) as Hext.
  pose proof (cached_polygon_unfold l ways s) as Hun.
  destruct (cached_polygon l ways s) as [s1 [p|e']]; [by apply Hlater|].
  cbn [snd]. intros [= ->]. exists m. split; [by left|]. split; [done|].
  right. destruct (heap s !! l) as [[n|w|r]|] eqn:Hh.
  1,3,4: left; exists l; split; [done|]; rewrite Hh;
    split; [reflexivity|congruence].
  destruct (Way.polygon w) as [p|] eqn:Hp; [done|].
  right. exists l. split; [done|]. split; [by exists w|].
  destruct (snd (build_polygon l ways s)); congruence.
Qed.

(** X8.  A failure of [build_multipolygon] is the failure of one "way"
    member, and it can be read off the state the call started in: the
    member's reference is not in the mapping ([KeyError] on it), or the
    mapping gives it to something that is no way ([AttributeError] on
    [polygon]), or it names an uncached way on which [build_polygon]
    raises this very exception. *)
Theorem build_multipolygon_failure
    (s : state) (self : loc) (r : Relation.t) (W : gmap Z loc) (e : exn) :
  heap s !! self = Some (ORelation r) →
  snd (build_multipolygon self W s) = Raise e →
  ∃ m, m ∈ Relation.members r ∧ Member.type m = "way"
    ∧ ((W !! Member.ref m = None ∧ e = KeyError (Member.ref m))
       ∨ (∃ l, W !! Member.ref m = Some l
             ∧ heap s !! l ≫= as_way = None
             ∧ e = AttributeError "polygon")
       ∨ (∃ l, W !! Member.ref m = Some l ∧ uncached s l
             ∧ snd (build_polygon l W s) = Raise e)).
Proof.
  intros Hr. rewrite (build_multipolygon_relation _ _ _ _ Hr).
  pose proof (for_members_failure W (Relation.members r) [] s e) as H.
  destruct (for_members W (Relation.members r) [] s) as [s' [ps|e']];
    [done|].
  intros [= ->]. destruct (H eq_refl) as (m & Hin & Hm & Hcase).
  exists m. split; [done|]. split; [by apply String.eqb_eq|done].
Qed.

(** ** Members put end to end *)

Lemma for_members_acc ways ms acc s :
  for_members ways ms acc s =
  match for_members ways ms [] s with
  | (s', Ok ps) => (s', Ok (acc ++ ps))
  | (s', Raise e) => (s', Raise e)
  end.
Proof.
  revert acc s. induction ms as [|m ms IH]; intros acc s.
  { simpl. by rewrite app_nil_r. }
  rewrite !for_members_cons. destruct (is_way m); [|apply IH].
  destruct (ways !! Member.ref m) as [l|]; [|done].
  destruct (cached_polygon l ways s) as [s1 [p|e]]; [|done].
  rewrite (IH (acc ++ [p])), (IH ([] ++ [p])).
  destruct (for_members ways ms [] s1) as [s2 [ps|e]]; [|done].
  by rewrite <- app_assoc.
Qed.

(** X9.  Building composes along the member list: when the members
    of a relation are those of a first relation followed by those of a
    second, and building the first and then the second returns, building
    it in one call returns the polygons of the first followed by those
    of the second and leaves the same state. *)
Theorem build_multipolygon_concat
    (s : state) (a b c : loc) (ra rb rc : Relation.t) (W : gmap Z loc)
    (s1 s2 : state) (mpa mpb : MultiPolygon) :
  heap s !! a = Some (ORelation ra) →
  heap s !! b = Some (ORelation rb) →
  heap s !! c = Some (ORelation rc) →
  Relation.members rc = Relation.members ra ++ Relation.members rb →
  build_multipolygon a W s = (s1, Ok mpa) →
  build_multipolygon b W s1 = (s2, Ok mpb) →
  build_multipolygon c W s
  = (s2, Ok (mkMultiPolygon (geoms mpa ++ geoms mpb))).
Proof.
  intros Ha Hb Hc Hms Hra.
  assert (Hb1 : heap s1 !! b = Some (ORelation rb)).
  { pose proof (build_multipolygon_extends a W s) as Hext.
    rewrite Hra in Hext. by eapply relation_extends. }
  revert Hra.
  rewrite (build_multipolygon_relation _ _ _ _ Ha),
    (build_multipolygon_relation _ _ _ _ Hb1),
    (build_multipolygon_relation _ _ _ _ Hc), Hms, for_members_app.
  destruct (for_members W (Relation.members ra) [] s) as [s1' [psa|e]];
    [|done].
  intros [= -> <-].
  rewrite (for_members_acc W (Relation.members rb) psa s1).
  destruct (for_members W (Relation.members rb) [] s1) as [s2' [psb|e]];
    [|done].
  by intros [= -> <-].
Qed.

(** ** Ways shared between relations *)

(** X10.  A polygon cached by one call serves every later call: after
    [build_multipolygon] has returned for a relation, a later call for
    any relation and with any mapping does not call [build_polygon] on
    a way the first relation's "way" members name, and leaves that way
    and its polygon as they are. *)
Theorem build_multipolygon_shares_caches
    (s : state) (a : loc) (ra : Relation.t) (W : gmap Z loc)
    (s1 : state) (mp : MultiPolygon)
    (b : loc) (W' : gmap Z loc) (s2 : state) (res : result MultiPolygon)
    (m : Member.t) (l : loc) :
  heap s !! a = Some (ORelation ra) →
  build_multipolygon a W s = (s1, Ok mp) →
  build_multipolygon b W' s1 = (s2, res) →
  m ∈ Relation.members ra → Member.type m = "way" →
  W !! Member.ref m = Some l →
  (∃ new, calls s2 = calls s1 ++ new ∧ l ∉ new)
  ∧ is_Some (polygon_of s1 l)
  ∧ heap s2 !! l = heap s1 !! l.
Proof.
  intros Ha Hra Hrb Hin Hm Hl.
  assert (Hc : cached s1 l).
  { revert Hra. rewrite (build_multipolygon_relation _ _ _ _ Ha).
    pose proof (for_members_cached W (Relation.members ra) [] s) as Hc.
    destruct (for_members W (Relation.members ra) [] s) as [s1' [ps|e]];
      [|done].
    intros [= -> <-].
    destruct (Hc ps m eq_refl Hin) as (l' & Hl' & Hcached).
    { by apply String.eqb_eq. }
    cbn [fst] in Hcached. congruence. }
  pose proof (build_multipolygon_extends b W' s1) as Hext.
  rewrite Hrb in Hext. cbn [fst] in Hext.
  destruct Hc as (w & p & Hw & Hp). split; [|split].
  - destruct (ext_calls _ _ Hext) as (new & Hnew & Hfresh).
    exists new. split; [done|]. intros Hmem.
    rewrite Forall_forall in Hfresh.
    destruct (Hfresh l Hmem) as (w' & Hw' & Hp'). congruence.
  - unfold polygon_of. rewrite Hw. simpl. by eexists.
  - rewrite Hw. by eapply (ext_kept _ _ Hext).
Qed.

(** ** Equality *)

(** X11.  [==] on elements is an equivalence: every element equals
    itself, [p == q] and [q == p] give the same answer, whatever the
    classes of [p] and [q], and equality is transitive. *)
Theorem py_eq_equivalence (p q r : obj) :
  py_eq p p = true
  ∧ py_eq p q = py_eq q p
  ∧ (py_eq p q = true → py_eq q r = true → py_eq p r = true).
Proof.
  split; [|split].
  - destruct p; cbn; apply Z.eqb_refl.
  - destruct p, q; cbn; try done; apply Z.eqb_sym.
  - destruct p, q, r; cbn; try done; rewrite !Z.eqb_eq; congruence.
Qed.

Lemma py_eq_erase o o' q :
  erase o = erase o' →
  py_eq o q = py_eq o' q ∧ py_eq q o = py_eq q o'.
Proof.
  destruct o as [n|[]|r], o' as [n'|[]|r'], q; intros; by simplify_eq/=.
Qed.

(** X12.  Filling caches does not change what is equal to what: the
    object a location holds after [build_multipolygon] compares, with
    any element and on either side of [==], as the object it held
    before, and it equals that object. *)
Theorem py_eq_after_build
    (s : state) (self : loc) (W : gmap Z loc) (l : loc) (o o' q : obj) :
  heap s !! l = Some o →
  heap (fst (build_multipolygon self W s)) !! l = Some o' →
  py_eq o' q = py_eq o q ∧ py_eq q o' = py_eq q o ∧ py_eq o o' = true.
Proof.
  intros Ho Ho'.
  pose proof (ext_frame _ _ (build_multipolygon_extends self W s) l) as H.
  rewrite Ho, Ho' in H. injection H as H.
  destruct (py_eq_erase o o' q H) as [H1 H2].
  destruct (py_eq_erase o o' o H) as [_ H3].
  split; [done|]. split; [done|].
  rewrite <- H3. destruct o; cbn; apply Z.eqb_refl.
Qed.

(** ** Instances of the further properties *)

Lemma way12_first_failure :
  snd (build_polygon 6 example_points example_state) = Raise (KeyError 4).
Proof.
  destruct (build_polygon_outcome example_state 6 way12 example_points)
    as (_ & Hfirst); [reflexivity|].
  destruct (Hfirst [1] 4 []) as [Hmissing _]; [reflexivity| |].
  - repeat constructor. eexists. reflexivity.
  - apply Hmissing. reflexivity.
Defined.

Lemma ring_is_closed :
  snd (build_polygon 4 example_points example_state) = Ok ring
  ∧ last (shell ring) = head (shell ring).
Proof.
  assert (H : snd (build_polygon 4 example_points example_state) = Ok ring).
  { vm_compute. reflexivity. }
  split; [exact H|].
  apply (build_polygon_closed_ring example_state 4 way10 example_points
           ring); [reflexivity|exact H|reflexivity].
Defined.

Lemma way10_over_ways :
  snd (build_polygon 4 ways_only13 larger_state) = Raise (KeyError 1).
Proof.
  apply (build_polygon_over_ways larger_state 4 way10 ways_only13).
  - unfold ways_mapping. apply (bool_decide_unpack _). vm_compute. exact I.
  - reflexivity.
Defined.

Lemma relation22_over_ways :
  ∃ mp, snd (build_multipolygon 22 ways_only13 larger_state) = Ok mp.
Proof.
  apply (build_multipolygon_over_ways larger_state 22 relation22
           ways_only13).
  - unfold ways_mapping. apply (bool_decide_unpack _). vm_compute. exact I.
  - reflexivity.
  - repeat constructor.
    + exists 5%positive, way11. split; [reflexivity|]. split; [reflexivity|].
      left. eexists. reflexivity.
    + exists 13%positive, way13. split; [reflexivity|]. split; [reflexivity|].
      right. reflexivity.
Defined.

Lemma relation7_leaves_points :
  heap (fst (build_multipolygon 7 example_mapping example_state))
    !! 1%positive
  = heap example_state !! 1%positive.
Proof.
  destruct (build_multipolygon_writes example_state 7 relation7
              example_mapping 1) as [H|(m & w & p & _ & _ & _ & Hw & _)].
  - reflexivity.
  - exact H.
  - vm_compute in Hw. discriminate Hw.
Defined.

Lemma relation7_result_cached :
  Forall2 (λ m p, ∃ l, example_mapping !! Member.ref m = Some l
             ∧ polygon_of
                 (fst (build_multipolygon 7 example_mapping example_state)) l
               = Some p)
    (way_members relation7) [ring; stale; ring].
Proof.
  apply (build_multipolygon_result_cached example_state 7 relation7
           example_mapping _ (mkMultiPolygon [ring; stale; ring])).
  - reflexivity.
  - vm_compute. reflexivity.
Defined.

Lemma relation23_from_caches :
  ∃ ps, build_multipolygon 23 ways_only larger_state
        = (larger_state, Ok (mkMultiPolygon ps)).
Proof.
  destruct (build_multipolygon_all_cached larger_state 23 relation23
              ways_only) as (ps & Hps & _).
  - reflexivity.
  - repeat constructor; exists 5%positive; (split; [reflexivity|]);
      exists way11, stale; split; reflexivity.
  - exists ps. exact Hps.
Defined.

Lemma relation8_failing_member :
  ∃ m, m ∈ Relation.members relation8 ∧ Member.type m = "way"
    ∧ ((example_mapping !! Member.ref m = None
        ∧ KeyError 99 = KeyError (Member.ref m))
       ∨ (∃ l, example_mapping !! Member.ref m = Some l
             ∧ heap example_state !! l ≫= as_way = None
             ∧ KeyError 99 = AttributeError "polygon")
       ∨ (∃ l, example_mapping !! Member.ref m = Some l
             ∧ uncached example_state l
             ∧ snd (build_polygon l example_mapping example_state)
               = Raise (KeyError 99))).
Proof.
  apply (build_multipolygon_failure example_state 8 relation8
           example_mapping (KeyError 99)).
  - reflexivity.
  - vm_compute. reflexivity.
Defined.

Lemma relation21_end_to_end :
  ∃ s1 s2 mpa mpb,
    build_multipolygon 7 example_mapping larger_state = (s1, Ok mpa)
    ∧ build_multipolygon 20 example_mapping s1 = (s2, Ok mpb)
    ∧ build_multipolygon 21 example_mapping larger_state
      = (s2, Ok (mkMultiPolygon (geoms mpa ++ geoms mpb))).
Proof.
  eexists _, _, _, _.
  split; [vm_compute; reflexivity|]. split; [vm_compute; reflexivity|].
  eapply (build_multipolygon_concat larger_state 7 20 21 relation7
            relation20 relation21 example_mapping);
    [reflexivity..|vm_compute; reflexivity|vm_compute; reflexivity].
Defined.

Lemma way10_shared :
  ∃ s1 mp s2 res,
    build_multipolygon 7 example_mapping example_state = (s1, Ok mp)
    ∧ build_multipolygon 8 ways_only s1 = (s2, res)
    ∧ heap s2 !! 4%positive = heap s1 !! 4%positive.
Proof.
  pose (s1 := fst (build_multipolygon 7 example_mapping example_state)).
  pose (mp := mkMultiPolygon [ring; stale; ring]).
  pose (s2 := fst (build_multipolygon 8 ways_only s1)).
  pose (res := snd (build_multipolygon 8 ways_only s1)).
  assert (H1 : build_multipolygon 7 example_mapping example_state
               = (s1, Ok mp)).
  { vm_compute. reflexivity. }
  assert (H2 : build_multipolygon 8 ways_only s1 = (s2, res)).
  { apply surjective_pairing. }
  exists s1, mp, s2, res. split; [exact H1|]. split; [exact H2|].
  destruct (build_multipolygon_shares_caches example_state 7 relation7
              example_mapping s1 mp 8 ways_only s2 res
              (Member.mk "way" 10) 4) as (_ & _ & H).
  - reflexivity.
  - exact H1.
  - exact H2.
  - apply list_elem_of_In. left. reflexivity.
  - reflexivity.
  - reflexivity.
  - exact H.
Defined.

Lemma equal_through_a_third :
  py_eq way_10 (OWay selfref_way) = true.
Proof.
  destruct (py_eq_equivalence way_10
              (OWay (Way.with_polygon way10 (Some ring)))
              (OWay selfref_way)) as (_ & _ & Htrans).
  apply Htrans; reflexivity.
Defined.

Lemma way10_equal_after_build :
  py_eq (OWay (Way.with_polygon way10 (Some ring))) way_10
  = py_eq way_10 way_10.
Proof.
  apply (py_eq_after_build example_state 7 example_mapping 4 way_10
           (OWay (Way.with_polygon way10 (Some ring))) way_10).
  - reflexivity.
  - vm_compute. reflexivity.
Defined.

(** ** The diagnostic strings *)

Lemma pretty_N_go_comma_free x s :
  comma_free s = true → comma_free (pretty_N_go x s) = true.
Proof.
  revert s. induction (N.lt_wf_0 x) as [x _ IH]; intros s Hs.
  assert (x = 0 ∨ 0 < x)%N as [->|Hx] by lia.
  - by rewrite pretty_N_go_0.
  - rewrite pretty_N_go_step by done. apply IH.
    { by apply N.div_lt. }
    cbn [comma_free]. rewrite Hs. unfold pretty_N_char.
    by repeat case_match.
Qed.

Lemma str_int_comma_free z : comma_free (str_int z) = true.
Proof.
  unfold str_int, pretty, pretty_Z, pretty, pretty_positive, pretty,
    pretty_N.
  destruct z as [|x|x]; [done| |]; cbn [String.append comma_free];
    destruct (decide _); try done; by apply pretty_N_go_comma_free.
Qed.

(** Two comma-free strings followed by a comma: the comma ends each. *)
Lemma cut_at_comma u v x y :
  comma_free u = true → comma_free v = true →
  u +:+ String ","%char x = v +:+ String ","%char y → u = v ∧ x = y.
Proof.
  revert v. induction u as [|c u IH]; intros [|d v]; cbn; intros Hu Hv H.
  - by simplify_eq.
  - by simplify_eq.
  - by simplify_eq.
  - apply andb_prop in Hu as [_ Hu]. apply andb_prop in Hv as [_ Hv].
    injection H as -> H. by destruct (IH v Hu Hv H) as [-> ->].
Qed.

(** X13.  The diagnostic string shows the class and the [id]:
    whatever Python's renderings of the other attributes are, two
    elements with the same string are of the same class and have the
    same [id], and so are equal under [==]. *)
Theorem py_str_shows_identity
    (repr_float : float → string) (repr_tags : tags_t → string)
    (repr_members : list Member.t → string) (p q : obj) :
  py_str repr_float repr_tags repr_members p
  = py_str repr_float repr_tags repr_members q →
  class_of p = class_of q ∧ identity p = identity q ∧ py_eq p q = true.
Proof.
  assert (Hid : ∀ a b x y,
            str_int a +:+ String ","%char x = str_int b +:+ String ","%char y →
            a = b).
  { intros a b x y H.
    apply cut_at_comma in H as [H _]; [|apply str_int_comma_free..].
    by apply (inj pretty) in H. }
  destruct p as [n|w|r], q as [n'|w'|r'];
    unfold py_str, Node__str__, Way__str__, Relation__str__;
    cbn [String.append]; intros H; simplify_eq.
  all: apply Hid in H; cbn; rewrite H, Z.eqb_refl; done.
Qed.

Lemma way10_str_same :
  py_eq way_10 (OWay (Way.with_polygon way10 (Some ring))) = true.
Proof.
  apply (py_str_shows_identity (λ _, "0.0") (λ _, "None") (λ _, "[]")
           way_10 (OWay (Way.with_polygon way10 (Some ring)))).
  reflexivity.
Defined.

(** The string of way 10, with the tags left to Python. *)
Example way10_str :
  Way__str__ (λ _, "{'name': 'Park'}") way10
  = "Way(id=10, nodes=[1, 2, 3, 1], tags={'name': 'Park'})".
Proof. vm_compute. reflexivity. Qed.
